(** * Billing aggregation of connected-accounting, embedded in Rocq

    The TypeScript pages compute every derived figure (totals, buckets,
    invoice amounts) with JavaScript numbers, that is IEEE-754 binary64
    values.  The embedding keeps that representation: a JS [number] is a
    primitive [float], [a + b] and [a * b] are the binary64 operations, and a
    [reduce] is a left fold.  [Map] is an insertion-ordered association list,
    [Array.prototype.sort] a stable sort driven by the comparator's sign. *)

From Stdlib Require Import List String Ascii Bool ZArith Lia PeanoNat.
From Stdlib Require Import Permutation Sorted.
From Stdlib Require Import DecimalString DecimalNat.
From Stdlib Require Import Floats.PrimFloat.
From Stdlib Require Floats.FloatAxioms Floats.SpecFloat Floats.FloatOps.
Import ListNotations.

Set Warnings "-inexact-float,-abstract-large-number".

Open Scope string_scope.
Open Scope list_scope.

(** ** The JavaScript runtime the pages rely on *)

Module JS.

Abbreviation number := float (only parsing).

(** Truthiness of a number: [0], [-0] and [NaN] are falsy. *)
Definition truthy (x : number) : bool :=
  negb (is_nan x || is_zero x).

(** [x || 0] on numbers. *)
Definition or_zero (x : number) : number :=
  if truthy x then x else 0%float.

(** [xs.reduce((sum, x) => sum + x, 0)]: the left-to-right binary64 sum. *)
Definition sum (xs : list number) : number :=
  fold_left add xs 0%float.

(** [x > 0]. *)
Definition gt_zero (x : number) : bool := (0 <? x)%float.

(** [arr.slice(-n)]: the last [n] elements, the whole array when shorter. *)
Definition slice_last {A : Type} (n : nat) (arr : list A) : list A :=
  skipn (List.length arr - n) arr.

(** [arr.sort(compareFn)].  The sort is stable; only the sign of
    [compareFn a b] is observed. *)
Fixpoint sort_insert {A : Type} (compareFn : A -> A -> Z) (x : A) (sorted : list A)
  : list A :=
  match sorted with
  | [] => [x]
  | y :: rest =>
      if (compareFn x y <=? 0)%Z then x :: sorted
      else y :: sort_insert compareFn x rest
  end.

Fixpoint sort {A : Type} (compareFn : A -> A -> Z) (arr : list A) : list A :=
  match arr with
  | [] => []
  | x :: rest => sort_insert compareFn x (sort compareFn rest)
  end.

(** [Map<string, V>]: entries in insertion order; [set] on a present key
    replaces the value in place, on a fresh key appends. *)
Definition Map (V : Type) := list (string * V).

Fixpoint Map_get {V : Type} (m : Map V) (key : string) : option V :=
  match m with
  | [] => None
  | (k, v) :: rest => if String.eqb k key then Some v else Map_get rest key
  end.

Fixpoint Map_set {V : Type} (m : Map V) (key : string) (value : V) : Map V :=
  match m with
  | [] => [(key, value)]
  | (k, v) :: rest =>
      if String.eqb k key then (key, value) :: rest
      else (k, v) :: Map_set rest key value
  end.

(** [Array.from(m.entries())]. *)
Definition Map_entries {V : Type} (m : Map V) : list (string * V) := m.

(** [s || null] on strings: the empty string is falsy. *)
Definition or_null (s : string) : option string :=
  if String.eqb s "" then None else Some s.

(** The value of a decimal digit. *)
Definition digit_of (c : ascii) : option float :=
  match c with
  | "0"%char => Some 0%float | "1"%char => Some 1%float
  | "2"%char => Some 2%float | "3"%char => Some 3%float
  | "4"%char => Some 4%float | "5"%char => Some 5%float
  | "6"%char => Some 6%float | "7"%char => Some 7%float
  | "8"%char => Some 8%float | "9"%char => Some 9%float
  | _ => None
  end.

(** Reads a run of digits onto [acc]: the value, the number of digits read
    and the rest of the text. *)
Fixpoint read_digits (s : string) (acc : float) (n : nat) : float * nat * string :=
  match s with
  | String c rest =>
      match digit_of c with
      | Some v => read_digits rest (acc * 10 + v)%float (S n)
      | None => (acc, n, s)
      end
  | EmptyString => (acc, n, s)
  end.

Fixpoint pow10 (n : nat) : float :=
  match n with
  | O => 1%float
  | S n' => (pow10 n' * 10)%float
  end.

Definition is_white_space (c : ascii) : bool :=
  let n := nat_of_ascii c in (n =? 32)%nat || ((9 <=? n)%nat && (n <=? 13)%nat).

Fixpoint skip_white_space (s : string) : string :=
  match s with
  | String c rest => if is_white_space c then skip_white_space rest else s
  | EmptyString => s
  end.

(** [parseFloat] on plain decimal literals: leading white space, an optional
    sign, digits with an optional fraction; what follows is ignored, and the
    result is [NaN] when there is no digit.  The value is [digits / 10^k],
    the correctly rounded binary64 value for literals of up to 15
    significant digits; exponents, [Infinity] and longer literals are outside
    this fragment. *)
Definition parseFloat (s : string) : number :=
  let s := skip_white_space s in
  let '(negative, s) :=
    match s with
    | String "-" rest => (true, rest)
    | String "+" rest => (false, rest)
    | _ => (false, s)
    end in
  let '(int_part, n_int, rest) := read_digits s 0%float 0 in
  let '(mantissa, n_frac) :=
    match rest with
    | String "." rest' =>
        let '(m, n, _) := read_digits rest' int_part 0 in (m, n)
    | _ => (int_part, 0)
    end in
  if (n_int + n_frac =? 0)%nat then nan
  else
    let v := (mantissa / pow10 n_frac)%float in
    if negative then (- v)%float else v.

End JS.

(** ** Calendar dates

    The [date] columns of the store ([paid_date], [expenses.date]) hold
    calendar dates; the pages receive them as ["YYYY-MM-DD"].  A date is kept
    as its three components. *)

Module Date.

Record t := mk { year : nat; month : nat; day : nat }.

Definition valid (d : t) : Prop :=
  1 <= month d <= 12 /\ 1 <= day d <= 31.

Definition month_names : list string :=
  ["Jan"; "Feb"; "Mar"; "Apr"; "May"; "Jun";
   "Jul"; "Aug"; "Sep"; "Oct"; "Nov"; "Dec"].

(** date-fns token [MMM]. *)
Definition MMM (m : nat) : string := nth (m - 1) month_names "".

Definition decimal (n : nat) : string :=
  NilEmpty.string_of_uint (Nat.to_uint n).

Fixpoint zeros (n : nat) : string :=
  match n with
  | O => ""
  | S n' => String "0" (zeros n')
  end.

(** Zero padding to a minimal width, as the [yyyy] and [dd] tokens do. *)
Definition pad (width n : nat) : string :=
  let s := decimal n in (zeros (width - String.length s) ++ s)%string.

(** [startOfMonth(d)]. *)
Definition startOfMonth (d : t) : t := mk (year d) (month d) 1.

(** [format(d, "MMM yyyy")]. *)
Definition format_MMM_yyyy (d : t) : string :=
  (MMM (month d) ++ " " ++ pad 4 (year d))%string.

(** [format(d, "MMM dd")]. *)
Definition format_MMM_dd (d : t) : string :=
  (MMM (month d) ++ " " ++ pad 2 (day d))%string.

(** Days from 1970-01-01 to the first day of a month (proleptic Gregorian
    calendar). *)
Definition is_leap (y : Z) : bool :=
  ((y mod 4 =? 0) && (negb (y mod 100 =? 0) || (y mod 400 =? 0)))%Z.

Definition days_before_year (y : Z) : Z :=
  (365 * (y - 1970) + ((y - 1) / 4 - 1969 / 4)
   - ((y - 1) / 100 - 1969 / 100) + ((y - 1) / 400 - 1969 / 400))%Z.

Definition days_before_month (leap : bool) (m : nat) : Z :=
  (nth (m - 1) [0; 31; 59; 90; 120; 151; 181; 212; 243; 273; 304; 334] 0
   + (if leap && (2 <? m)%nat then 1 else 0))%Z.

Definition month_start_ms (y m : nat) : Z :=
  ((days_before_year (Z.of_nat y) + days_before_month (is_leap (Z.of_nat y)) m)
   * 86400000)%Z.

Fixpoint month_number_from (i : nat) (names : list string) (s : string) : option nat :=
  match names with
  | [] => None
  | n :: rest => if String.eqb n s then Some i else month_number_from (S i) rest s
  end.

Definition month_number (s : string) : option nat :=
  month_number_from 1 month_names s.

(** Reading a label written by [format_MMM_yyyy] back: [(year, month)]. *)
Definition parse_MMM_yyyy (label : string) : option (nat * nat) :=
  match label with
  | String a (String b (String c (String " " digits))) =>
      match month_number (String a (String b (String c ""))),
            NilEmpty.uint_of_string digits with
      | Some m, Some u =>
          match digits with
          | "" => None
          | _ => Some (Nat.of_uint u, m)
          end
      | _, _ => None
      end
  | _ => None
  end.

(** [new Date(label).getTime()] for such a label: the engines read
    ["Mar 2024"] as the first day of that month.  [None] is the [NaN] of an
    invalid date.  (The time-zone offset moves every month start by less than
    a day and is left out.) *)
Definition getTime_of_label (label : string) : option Z :=
  match parse_MMM_yyyy label with
  | Some (y, m) => Some (month_start_ms y m)
  | None => None
  end.

End Date.

(** ** Dashboard.tsx *)

(** [PaymentData]: the columns read by the dashboard.  [paid_date] is null
    or the calendar date that [parseISO] reads from the column's text. *)
Record PaymentData := mkPayment {
  amount : float;
  status : string;
  paid_date : option Date.t
}.

(** [payment.status === "paid" && payment.paid_date]. *)
Definition paid_with_date (payment : PaymentData) : option Date.t :=
  if String.eqb (status payment) "paid" then paid_date payment else None.

(** [loadStats]: the two figures of the stat cards. *)
Definition totalPaid (payments : list PaymentData) : float :=
  fold_left (fun sum p => (sum + amount p)%float)
    (filter (fun p => String.eqb (status p) "paid") payments) 0%float.

Definition totalPending (payments : list PaymentData) : float :=
  fold_left (fun sum p => (sum + amount p)%float)
    (filter (fun p => String.eqb (status p) "pending"
                      || String.eqb (status p) "overdue") payments) 0%float.

Record StatusCount := mkStatusCount {
  sc_paid : float;
  sc_pending : float;
  sc_overdue : float
}.

(** The value type of [monthlyMap]. *)
Record MonthlyData := mkMonthlyData {
  md_revenue : float;
  md_count : nat
}.

(** The three accumulators of [processChartData]. *)
Record ChartAcc := mkChartAcc {
  monthlyMap : JS.Map MonthlyData;
  timelineMap : JS.Map float;
  statusCount : StatusCount
}.

Definition statusCount_step (sc : StatusCount) (payment : PaymentData) : StatusCount :=
  let amount := amount payment in
  if String.eqb (status payment) "paid" then
    mkStatusCount (sc_paid sc + amount) (sc_pending sc) (sc_overdue sc)
  else if String.eqb (status payment) "pending" then
    mkStatusCount (sc_paid sc) (sc_pending sc + amount) (sc_overdue sc)
  else if String.eqb (status payment) "overdue" then
    mkStatusCount (sc_paid sc) (sc_pending sc) (sc_overdue sc + amount)
  else sc.

(** [monthlyMap.get(monthKey) || { revenue: 0, count: 0 }], then [set]. *)
Definition monthly_update (existing : option MonthlyData) (amount : float) : MonthlyData :=
  let existing := match existing with
                  | Some e => e
                  | None => mkMonthlyData 0 0
                  end in
  mkMonthlyData (md_revenue existing + amount) (md_count existing + 1).

(** [(timelineMap.get(dateKey) || 0) + amount]. *)
Definition timeline_update (existing : option float) (amount : float) : float :=
  ((match existing with
    | Some v => JS.or_zero v
    | None => 0
    end) + amount)%float.

(** The body of [payments.forEach]. *)
Definition forEach_body (acc : ChartAcc) (payment : PaymentData) : ChartAcc :=
  let amount := amount payment in
  let statusCount := statusCount_step (statusCount acc) payment in
  match paid_with_date payment with
  | Some d =>
      let monthKey := Date.format_MMM_yyyy (Date.startOfMonth d) in
      let monthlyMap :=
        JS.Map_set (monthlyMap acc) monthKey
          (monthly_update (JS.Map_get (monthlyMap acc) monthKey) amount) in
      let dateKey := Date.format_MMM_dd d in
      let timelineMap :=
        JS.Map_set (timelineMap acc) dateKey
          (timeline_update (JS.Map_get (timelineMap acc) dateKey) amount) in
      mkChartAcc monthlyMap timelineMap statusCount
  | None => mkChartAcc (monthlyMap acc) (timelineMap acc) statusCount
  end.

Record MonthlyEntry := mkMonthlyEntry {
  me_month : string;
  me_revenue : float;
  me_payments : nat
}.

Record TimelineEntry := mkTimelineEntry {
  te_date : string;
  te_revenue : float
}.

Record StatusEntry := mkStatusEntry {
  se_name : string;
  se_value : float;
  se_color : string
}.

Record ChartData := mkChartData {
  monthly : list MonthlyEntry;
  timeline : list TimelineEntry;
  statusDistribution : list StatusEntry
}.

(** [new Date(a.month).getTime() - new Date(b.month).getTime()]; a [NaN]
    difference counts as [0] for the sort. *)
Definition compare_months (a b : MonthlyEntry) : Z :=
  match Date.getTime_of_label (me_month a), Date.getTime_of_label (me_month b) with
  | Some ta, Some tb => (ta - tb)%Z
  | _, _ => 0%Z
  end.

Definition processChartData (payments : list PaymentData) : ChartData :=
  let acc :=
    fold_left forEach_body payments
      (mkChartAcc [] [] (mkStatusCount 0 0 0)) in
  let monthly :=
    JS.slice_last 6
      (JS.sort compare_months
         (map (fun '(month, data) =>
                 mkMonthlyEntry month (md_revenue data) (md_count data))
              (JS.Map_entries (monthlyMap acc)))) in
  let timeline :=
    JS.slice_last 30
      (map (fun '(date, revenue) => mkTimelineEntry date revenue)
           (JS.Map_entries (timelineMap acc))) in
  let statusDistribution :=
    filter (fun item => JS.gt_zero (se_value item))
      [ mkStatusEntry "Paid" (sc_paid (statusCount acc)) "hsl(var(--success))";
        mkStatusEntry "Pending" (sc_pending (statusCount acc)) "hsl(var(--warning))";
        mkStatusEntry "Overdue" (sc_overdue (statusCount acc)) "hsl(var(--destructive))" ] in
  mkChartData monthly timeline statusDistribution.

(** ** Invoices.tsx *)

Module Invoices.

Record InvoiceItem := mkItem {
  id : option string;
  description : string;
  quantity : float;
  unit_price : float;
  amount : float
}.

(** The field of [invoiceForm] read by the totals. *)
Record InvoiceForm := mkForm {
  invoice_number : string;
  tax_rate : string
}.

Record Totals := mkTotals {
  subtotal : float;
  taxAmount : float;
  total : float
}.

Definition calculateItemAmount (quantity unitPrice : float) : float :=
  (quantity * unitPrice)%float.

(** The [field]/[value] pairs the form passes to [handleItemChange]. *)
Inductive ItemChange :=
| Description (value : string)
| Quantity (value : float)
| UnitPrice (value : float).

Definition set_field (item : InvoiceItem) (change : ItemChange) : InvoiceItem :=
  match change with
  | Description v => mkItem (id item) v (quantity item) (unit_price item) (amount item)
  | Quantity v => mkItem (id item) (description item) v (unit_price item) (amount item)
  | UnitPrice v => mkItem (id item) (description item) (quantity item) v (amount item)
  end.

Definition recompute_amount (item : InvoiceItem) : InvoiceItem :=
  mkItem (id item) (description item) (quantity item) (unit_price item)
    (calculateItemAmount (quantity item) (unit_price item)).

(** [handleItemChange(index, field, value)]: the new [items], for the index
    of a rendered row, which is what every call site passes.  For an index
    past the end the source grows the array by an object that has only the
    written field (and, after a numeric change, the amount [NaN]); such an
    object is no [InvoiceItem], and [None] marks these calls as outside the
    embedding, not as a failure of the function. *)
Fixpoint handleItemChange (items : list InvoiceItem) (index : nat) (change : ItemChange)
  : option (list InvoiceItem) :=
  match items, index with
  | [], _ => None
  | item :: rest, O =>
      let item' := set_field item change in
      let item' := match change with
                   | Quantity _ | UnitPrice _ => recompute_amount item'
                   | Description _ => item'
                   end in
      Some (item' :: rest)
  | item :: rest, S index' =>
      match handleItemChange rest index' change with
      | Some rest' => Some (item :: rest')
      | None => None
      end
  end.

Section Runtime.
  Variable parseFloat : string -> float.

(** [calculateTotals], over the [items] and [invoiceForm] state. *)
Definition calculateTotals (items : list InvoiceItem) (invoiceForm : InvoiceForm) : Totals :=
  let subtotal := fold_left (fun sum item => (sum + amount item)%float) items 0%float in
  let taxRate := (parseFloat (tax_rate invoiceForm) / 100)%float in
  let taxAmount := (subtotal * taxRate)%float in
  let total := (subtotal + taxAmount)%float in
  mkTotals subtotal taxAmount total.

(** The [onChange] handlers of the quantity and price inputs:
    [handleItemChange(index, "quantity", parseFloat(e.target.value) || 0)]. *)
Definition onQuantityChange (items : list InvoiceItem) (index : nat) (text : string) :=
  handleItemChange items index (Quantity (JS.or_zero (parseFloat text))).

Definition onUnitPriceChange (items : list InvoiceItem) (index : nat) (text : string) :=
  handleItemChange items index (UnitPrice (JS.or_zero (parseFloat text))).

End Runtime.

End Invoices.

(** ** ClientDetail.tsx: saving a payment *)

Module ClientDetail.

Record PaymentForm := mkForm {
  f_amount : string;
  f_status : string;
  f_description : string;
  f_due_date : string;
  f_invoice_document_id : string
}.

(** The columns written by [update] and [insert]. *)
Record PaymentFields := mkFields {
  amount : float;
  status : string;
  description : option string;
  due_date : option string;
  paid_date : option Date.t;
  invoice_document_id : option string
}.

Inductive Request :=
| Update (payment_id : string) (fields : PaymentFields)
| Insert (client_id user_id : string) (fields : PaymentFields).

Definition fields_of (r : Request) : PaymentFields :=
  match r with
  | Update _ f => f
  | Insert _ _ f => f
  end.

Inductive Outcome :=
| AmountRequired          (* toast "Amount is required" *)
| SignedOut               (* [if (!user) return] *)
| UploadFailed            (* the upload or the document row threw *)
| Sent (r : Request).     (* the request handed to the store *)

Section Runtime.
  Variable parseFloat : string -> float.
  (** [new Date().toISOString().split("T")[0]]: the clock's calendar date. *)
  Variable today : Date.t.

Definition payment_fields (paymentForm : PaymentForm) (invoiceDocId : string)
  : PaymentFields :=
  mkFields
    (parseFloat (f_amount paymentForm))
    (f_status paymentForm)
    (JS.or_null (f_description paymentForm))
    (JS.or_null (f_due_date paymentForm))
    (if String.eqb (f_status paymentForm) "paid" then Some today else None)
    (JS.or_null invoiceDocId).

(** [handleAddPayment].  [id] is the route's client id, [user] the signed-in
    user, [editingPayment] the id of the payment under edit, [invoiceFile]
    the outcome of the optional upload: [None] without a file, [Some None]
    when it failed, [Some (Some doc)] with the new document's id. *)
Definition handleAddPayment (paymentForm : PaymentForm) (id user : option string)
    (editingPayment : option string) (invoiceFile : option (option string)) : Outcome :=
  match JS.or_null (f_amount paymentForm), id with
  | None, _ | _, None => AmountRequired
  | Some _, Some id =>
      match user with
      | None => SignedOut
      | Some user =>
          let invoiceDocId :=
            match invoiceFile with
            | None => Some (f_invoice_document_id paymentForm)
            | Some uploaded => uploaded
            end in
          match invoiceDocId with
          | None => UploadFailed
          | Some invoiceDocId =>
              let fields := payment_fields paymentForm invoiceDocId in
              match editingPayment with
              | Some payment_id => Sent (Update payment_id fields)
              | None => Sent (Insert id user fields)
              end
          end
      end
  end.

End Runtime.

(** The [payments] table. *)
Record PaymentRow := mkRow {
  row_id : string;
  row_client_id : string;
  row_user_id : string;
  row_fields : PaymentFields
}.

(** The store carrying out a request; [fresh_id] is the key it gives to an
    inserted row. *)
Definition apply_request (fresh_id : string) (table : list PaymentRow) (r : Request)
  : list PaymentRow :=
  match r with
  | Update payment_id fields =>
      map (fun row =>
             if String.eqb (row_id row) payment_id
             then mkRow (row_id row) (row_client_id row) (row_user_id row) fields
             else row) table
  | Insert client_id user_id fields =>
      table ++ [mkRow fresh_id client_id user_id fields]
  end.

(** The two figures of the client page, over the client's payments. *)
Definition totalPaid (payments : list PaymentRow) : float :=
  fold_left (fun sum p => (sum + amount (row_fields p))%float)
    (filter (fun p => String.eqb (status (row_fields p)) "paid") payments) 0%float.

Definition totalPending (payments : list PaymentRow) : float :=
  fold_left (fun sum p => (sum + amount (row_fields p))%float)
    (filter (fun p => String.eqb (status (row_fields p)) "pending"
                      || String.eqb (status (row_fields p)) "overdue") payments) 0%float.

End ClientDetail.

(** ** The expenses page *)

Module Expenses.

Record Expense := mkExpense {
  amount : float;
  date : Date.t
}.

(** The browser's clock and time zone: the local calendar date of
    [new Date()] and the offset of local time from UTC, in minutes (negative
    west of Greenwich, between a day behind and a day ahead). *)
Record Clock := mkClock {
  now : Date.t;
  utc_offset : Z
}.

(** [new Date("YYYY-MM-DD")] is midnight UTC of that date; [getFullYear()]
    and [getMonth()] (0 for January) read it in local time, which west of
    Greenwich is still the evening before. *)
Definition getFullYear_getMonth (clock : Clock) (d : Date.t) : nat * nat :=
  if (utc_offset clock <? 0)%Z && (Date.day d =? 1)%nat then
    if (Date.month d =? 1)%nat then (Date.year d - 1, 11)
    else (Date.year d, Date.month d - 2)
  else (Date.year d, Date.month d - 1).

Definition totalExpenses (expenses : list Expense) : float :=
  fold_left (fun sum expense => (sum + amount expense)%float) expenses 0%float.

Definition monthlyExpenses (clock : Clock) (expenses : list Expense) : float :=
  let currentMonth := Date.month (now clock) - 1 in
  let currentYear := Date.year (now clock) in
  fold_left (fun sum expense => (sum + amount expense)%float)
    (filter (fun expense =>
               let '(year, month) := getFullYear_getMonth clock (date expense) in
               (month =? currentMonth)%nat && (year =? currentYear)%nat)
            expenses)
    0%float.

End Expenses.

(** ** Invoices.tsx: the form's state and saving an invoice *)

Module InvoicePage.

(** [invoiceForm]. *)
Record FormState := mkFormState {
  client_id : string;
  invoice_number : string;
  issue_date : string;
  due_date : string;
  status : string;
  notes : string;
  tax_rate : string
}.

(** What [calculateTotals] reads of the form. *)
Definition totals_form (f : FormState) : Invoices.InvoiceForm :=
  Invoices.mkForm (invoice_number f) (tax_rate f).

(** [{ description: "", quantity: 1, unit_price: 0, amount: 0 }]. *)
Definition blank_item : Invoices.InvoiceItem := Invoices.mkItem None "" 1 0 0.

Definition addItem (items : list Invoices.InvoiceItem) : list Invoices.InvoiceItem :=
  items ++ [blank_item].

(** [arr.filter((_, i) => keep(i))], counting from [i]. *)
Fixpoint filter_index {A : Type} (keep : nat -> bool) (i : nat) (arr : list A) : list A :=
  match arr with
  | [] => []
  | x :: rest =>
      if keep i then x :: filter_index keep (S i) rest
      else filter_index keep (S i) rest
  end.

Definition removeItem (items : list Invoices.InvoiceItem) (index : nat)
  : list Invoices.InvoiceItem :=
  if (1 <? List.length items)%nat
  then filter_index (fun i => negb (i =? index)%nat) 0 items
  else items.

(** The page's state; of [editingInvoice] only the id is ever read. *)
Record Page := mkPage {
  invoiceForm : FormState;
  items : list Invoices.InvoiceItem;
  editingInvoice : option string;
  dialogOpen : bool
}.

(** The form as [useState] and [resetForm] set it; [today] is
    [new Date().toISOString().split("T")[0]]. *)
Definition fresh_form (today : string) : FormState :=
  mkFormState "" "" today "" "draft" "" "0".

Definition initial (today : string) : Page :=
  mkPage (fresh_form today) [blank_item] None false.

Definition resetForm (today : string) (page : Page) : Page :=
  mkPage (fresh_form today) [blank_item] None (dialogOpen page).

(** What the user can do in the dialog. *)
Inductive Event :=
| SetClientId (value : string)
| SetInvoiceNumber (value : string)
| SetIssueDate (value : string)
| SetDueDate (value : string)
| SetStatus (value : string)
| SetNotes (value : string)
| SetTaxRate (value : string)
| DescriptionInput (index : nat) (text : string)
| QuantityInput (index : nat) (text : string)
| UnitPriceInput (index : nat) (text : string)
| AddItem
| RemoveItem (index : nat)
| OpenChange (open : bool)       (* the dialog's [onOpenChange] *)
| Saved.                         (* the end of a successful [handleSubmit] *)

Definition with_form (page : Page) (f : FormState) : Page :=
  mkPage f (items page) (editingInvoice page) (dialogOpen page).

Definition with_items (page : Page) (items : list Invoices.InvoiceItem) : Page :=
  mkPage (invoiceForm page) items (editingInvoice page) (dialogOpen page).

Section Runtime.
  Variable parseFloat : string -> float.

(** One event; [None] for an item event on a row that is not rendered. *)
Definition step (today : string) (page : Page) (e : Event) : option Page :=
  let f := invoiceForm page in
  match e with
  | SetClientId v =>
      Some (with_form page (mkFormState v (invoice_number f) (issue_date f)
                              (due_date f) (status f) (notes f) (tax_rate f)))
  | SetInvoiceNumber v =>
      Some (with_form page (mkFormState (client_id f) v (issue_date f)
                              (due_date f) (status f) (notes f) (tax_rate f)))
  | SetIssueDate v =>
      Some (with_form page (mkFormState (client_id f) (invoice_number f) v
                              (due_date f) (status f) (notes f) (tax_rate f)))
  | SetDueDate v =>
      Some (with_form page (mkFormState (client_id f) (invoice_number f) (issue_date f)
                              v (status f) (notes f) (tax_rate f)))
  | SetStatus v =>
      Some (with_form page (mkFormState (client_id f) (invoice_number f) (issue_date f)
                              (due_date f) v (notes f) (tax_rate f)))
  | SetNotes v =>
      Some (with_form page (mkFormState (client_id f) (invoice_number f) (issue_date f)
                              (due_date f) (status f) v (tax_rate f)))
  | SetTaxRate v =>
      Some (with_form page (mkFormState (client_id f) (invoice_number f) (issue_date f)
                              (due_date f) (status f) (notes f) v))
  | DescriptionInput index text =>
      option_map (with_items page)
        (Invoices.handleItemChange (items page) index (Invoices.Description text))
  | QuantityInput index text =>
      option_map (with_items page)
        (Invoices.onQuantityChange parseFloat (items page) index text)
  | UnitPriceInput index text =>
      option_map (with_items page)
        (Invoices.onUnitPriceChange parseFloat (items page) index text)
  | AddItem => Some (with_items page (addItem (items page)))
  | RemoveItem index => Some (with_items page (removeItem (items page) index))
  | OpenChange open =>
      let page := mkPage (invoiceForm page) (items page) (editingInvoice page) open in
      Some (if open then page else resetForm today page)
  | Saved =>
      Some (resetForm today
              (mkPage (invoiceForm page) (items page) (editingInvoice page) false))
  end.

(** The states the page can be in; [today] is the date at the time of the
    mount or of the event. *)
Inductive reachable : Page -> Prop :=
| reach_initial today : reachable (initial today)
| reach_step today page e page' :
    reachable page -> step today page e = Some page' -> reachable page'.

(** The [invoices] and [invoice_items] tables. *)
Record InvoiceRow := mkInvoiceRow {
  inv_id : string;
  inv_user_id : string;
  inv_client_id : string;
  inv_number : string;
  inv_issue_date : string;
  inv_due_date : string;
  inv_status : string;
  inv_subtotal : float;
  inv_tax_rate : float;
  inv_tax_amount : float;
  inv_total : float;
  inv_notes : option string
}.

Record ItemRow := mkItemRow {
  item_invoice_id : string;
  item_description : string;
  item_quantity : float;
  item_unit_price : float;
  item_amount : float
}.

Record Db := mkDb {
  invoices : list InvoiceRow;
  invoice_items : list ItemRow
}.

(** Which of the store's answers carry an error. *)
Record Faults := mkFaults {
  invoice_write_fails : bool;
  items_delete_fails : bool;
  items_insert_fails : bool
}.

Inductive Toast :=
| Required        (* "Client and invoice number are required" *)
| Silent          (* [if (!user) return] *)
| Success         (* "Invoice created/updated successfully" *)
| Failed.         (* "Failed to save invoice" *)

Definition invoice_row (id user_id : string) (f : FormState) (t : Invoices.Totals)
  : InvoiceRow :=
  mkInvoiceRow id user_id (client_id f) (invoice_number f) (issue_date f) (due_date f)
    (status f) (Invoices.subtotal t) (parseFloat (tax_rate f)) (Invoices.taxAmount t)
    (Invoices.total t) (JS.or_null (notes f)).

(** [itemsToInsert]. *)
Definition item_row (invoice_id : string) (item : Invoices.InvoiceItem) : ItemRow :=
  mkItemRow invoice_id (Invoices.description item) (Invoices.quantity item)
    (Invoices.unit_price item) (Invoices.amount item).

(** [handleSubmit]: the toast shown and the tables afterwards.  [user] is
    the signed-in user, [new_id] the key the store gives to an inserted
    invoice. *)
Definition handleSubmit (page : Page) (user : option string) (faults : Faults)
    (new_id : string) (db : Db) : Toast * Db :=
  let f := invoiceForm page in
  if String.eqb (client_id f) "" || String.eqb (invoice_number f) "" then (Required, db)
  else
    match user with
    | None => (Silent, db)
    | Some user =>
        let t := Invoices.calculateTotals parseFloat (items page) (totals_form f) in
        match editingInvoice page with
        | Some editing_id =>
            if invoice_write_fails faults then (Failed, db)
            else
              let invoices' :=
                map (fun row =>
                       if String.eqb (inv_id row) editing_id
                       then invoice_row (inv_id row) (inv_user_id row) f t
                       else row) (invoices db) in
              (* the answer of [delete] is not looked at *)
              let kept :=
                if items_delete_fails faults then invoice_items db
                else filter (fun r => negb (String.eqb (item_invoice_id r) editing_id))
                       (invoice_items db) in
              if items_insert_fails faults then (Failed, mkDb invoices' kept)
              else (Success, mkDb invoices' (kept ++ map (item_row editing_id) (items page)))
        | None =>
            if invoice_write_fails faults then (Failed, db)
            else
              let invoices' := invoices db ++ [invoice_row new_id user f t] in
              if items_insert_fails faults then (Failed, mkDb invoices' (invoice_items db))
              else (Success,
                    mkDb invoices' (invoice_items db ++ map (item_row new_id) (items page)))
        end
    end.

End Runtime.

End InvoicePage.

(** ** ClientDetail.tsx: the payment dialog and the document preview *)

Module ClientPage.

(** [s || ""] on a nullable string. *)
Definition or_empty (s : option string) : string :=
  match s with
  | Some s => s
  | None => ""
  end.

(** The dialog's state; of [editingPayment] only the id is read, of
    [invoiceFile] only that it is there (kept here: its name). *)
Record Dialog := mkDialog {
  paymentForm : ClientDetail.PaymentForm;
  editingPayment : option string;
  invoiceFile : option string;
  paymentDialogOpen : bool
}.

Definition blank_form : ClientDetail.PaymentForm :=
  ClientDetail.mkForm "" "pending" "" "" "".

Definition initial : Dialog := mkDialog blank_form None None false.

Inductive Event :=
| SetAmount (value : string)
| SetStatus (value : string)
| SetDescription (value : string)
| SetDueDate (value : string)
| ChooseFile (name : string)        (* the file input's [onChange] with a file *)
| ClearFile                         (* "Clear file", shown with a file *)
| SelectDocument (value : string)   (* the select, shown without a file *)
| ClearSelection                    (* "Clear selection" *)
| OpenChange (open : bool)          (* the dialog's [onOpenChange] *)
| Edit (payment : ClientDetail.PaymentRow)
| Saved.                            (* the end of a successful [handleAddPayment] *)

Definition with_form (d : Dialog) (f : ClientDetail.PaymentForm) : Dialog :=
  mkDialog f (editingPayment d) (invoiceFile d) (paymentDialogOpen d).

Section Runtime.
  (** [Number.prototype.toString]. *)
  Variable toString : float -> string.

(** [handleEditPayment]. *)
Definition handleEditPayment (payment : ClientDetail.PaymentRow) : Dialog :=
  let f := ClientDetail.row_fields payment in
  mkDialog
    (ClientDetail.mkForm
       (toString (ClientDetail.amount f))
       (ClientDetail.status f)
       (or_empty (ClientDetail.description f))
       (or_empty (ClientDetail.due_date f))
       (or_empty (ClientDetail.invoice_document_id f)))
    (Some (ClientDetail.row_id payment))
    None
    true.

(** One event; [None] for a control that is not shown in the state. *)
Definition step (d : Dialog) (e : Event) : option Dialog :=
  let f := paymentForm d in
  match e with
  | SetAmount v =>
      Some (with_form d (ClientDetail.mkForm v (ClientDetail.f_status f)
                           (ClientDetail.f_description f) (ClientDetail.f_due_date f)
                           (ClientDetail.f_invoice_document_id f)))
  | SetStatus v =>
      Some (with_form d (ClientDetail.mkForm (ClientDetail.f_amount f) v
                           (ClientDetail.f_description f) (ClientDetail.f_due_date f)
                           (ClientDetail.f_invoice_document_id f)))
  | SetDescription v =>
      Some (with_form d (ClientDetail.mkForm (ClientDetail.f_amount f)
                           (ClientDetail.f_status f) v (ClientDetail.f_due_date f)
                           (ClientDetail.f_invoice_document_id f)))
  | SetDueDate v =>
      Some (with_form d (ClientDetail.mkForm (ClientDetail.f_amount f)
                           (ClientDetail.f_status f) (ClientDetail.f_description f) v
                           (ClientDetail.f_invoice_document_id f)))
  | ChooseFile name =>
      Some (mkDialog
              (ClientDetail.mkForm (ClientDetail.f_amount f) (ClientDetail.f_status f)
                 (ClientDetail.f_description f) (ClientDetail.f_due_date f) "")
              (editingPayment d) (Some name) (paymentDialogOpen d))
  | ClearFile =>
      match invoiceFile d with
      | Some _ => Some (mkDialog f (editingPayment d) None (paymentDialogOpen d))
      | None => None
      end
  | SelectDocument v =>
      match invoiceFile d with
      | None =>
          Some (with_form d (ClientDetail.mkForm (ClientDetail.f_amount f)
                               (ClientDetail.f_status f) (ClientDetail.f_description f)
                               (ClientDetail.f_due_date f) v))
      | Some _ => None
      end
  | ClearSelection =>
      match JS.or_null (ClientDetail.f_invoice_document_id f), invoiceFile d with
      | Some _, None =>
          Some (with_form d (ClientDetail.mkForm (ClientDetail.f_amount f)
                               (ClientDetail.f_status f) (ClientDetail.f_description f)
                               (ClientDetail.f_due_date f) ""))
      | _, _ => None
      end
  | OpenChange open =>
      Some (if open then mkDialog f (editingPayment d) (invoiceFile d) true
            else mkDialog blank_form None None false)
  | Edit payment => Some (handleEditPayment payment)
  | Saved => Some (mkDialog blank_form None None false)
  end.

Inductive reachable : Dialog -> Prop :=
| reach_initial : reachable initial
| reach_step d e d' : reachable d -> step d e = Some d' -> reachable d'.

End Runtime.


End ClientPage.

(** ** The expenses page: saving and editing an expense *)

Module ExpensePage.

Record ExpenseForm := mkForm {
  f_amount : string;
  f_description : string;
  f_date : string;
  f_category : string;
  f_invoice_document_id : string
}.

(** The columns written by [update] and [insert]. *)
Record ExpenseFields := mkFields {
  amount : float;
  description : option string;
  date : string;
  category : option string;
  invoice_document_id : option string
}.

Record ExpenseRow := mkRow {
  row_id : string;
  row_fields : ExpenseFields
}.

Inductive Request :=
| Update (expense_id : string) (fields : ExpenseFields)
| Insert (user_id : string) (fields : ExpenseFields).

Inductive Outcome :=
| Required                (* toast "Amount and date are required" *)
| SignedOut               (* [if (!user) return] *)
| UploadFailed            (* the upload or the document row threw *)
| Sent (r : Request).

Section Runtime.
  Variable parseFloat : string -> float.
  Variable toString : float -> string.

Definition expense_fields (expenseForm : ExpenseForm) (invoiceDocId : string)
  : ExpenseFields :=
  mkFields
    (parseFloat (f_amount expenseForm))
    (JS.or_null (f_description expenseForm))
    (f_date expenseForm)
    (JS.or_null (f_category expenseForm))
    (JS.or_null invoiceDocId).

(** [handleSubmit]; [invoiceFile] is the outcome of the optional upload, as
    for payments. *)
Definition handleSubmit (expenseForm : ExpenseForm) (user : option string)
    (editingExpense : option string) (invoiceFile : option (option string)) : Outcome :=
  match JS.or_null (f_amount expenseForm), JS.or_null (f_date expenseForm) with
  | None, _ | _, None => Required
  | Some _, Some _ =>
      match user with
      | None => SignedOut
      | Some user =>
          let invoiceDocId :=
            match invoiceFile with
            | None => Some (f_invoice_document_id expenseForm)
            | Some uploaded => uploaded
            end in
          match invoiceDocId with
          | None => UploadFailed
          | Some invoiceDocId =>
              let fields := expense_fields expenseForm invoiceDocId in
              match editingExpense with
              | Some expense_id => Sent (Update expense_id fields)
              | None => Sent (Insert user fields)
              end
          end
      end
  end.

(** [handleEdit]: the form it fills and the expense put under edit. *)
Definition handleEdit (expense : ExpenseRow) : ExpenseForm * option string :=
  let f := row_fields expense in
  (mkForm (toString (amount f))
     (ClientPage.or_empty (description f))
     (date f)
     (ClientPage.or_empty (category f))
     (ClientPage.or_empty (invoice_document_id f)),
   Some (row_id expense)).

End Runtime.

End ExpensePage.

(** * Vocabulary of the statements *)

(** One round of [map.set(key, update(map.get(key), amount))]. *)
Definition accumulate {V : Type} (update : option V -> float -> V)
    (m : JS.Map V) (ka : string * float) : JS.Map V :=
  JS.Map_set m (fst ka) (update (JS.Map_get m (fst ka)) (snd ka)).

(** The amounts fed to a map under the key [k], in order. *)
Definition amounts_at (k : string) (kas : list (string * float)) : list float :=
  map snd (filter (fun ka => String.eqb (fst ka) k) kas).

(** Keys in order of first occurrence: what a [Map] filled by successive
    [set] calls iterates over. *)
Fixpoint first_occurrences (ks : list string) : list string :=
  match ks with
  | [] => []
  | k :: rest => k :: filter (fun k' => negb (String.eqb k k')) (first_occurrences rest)
  end.

Definition has_status (s : string) (p : PaymentData) : bool :=
  String.eqb (status p) s.

Definition amounts_with_status (s : string) (payments : list PaymentData) : list float :=
  map amount (filter (has_status s) payments).

(** The [(monthKey, amount)] pairs the loop feeds to [monthlyMap]. *)
Definition month_keyed (payments : list PaymentData) : list (string * float) :=
  flat_map (fun p => match paid_with_date p with
                     | Some d => [(Date.format_MMM_yyyy (Date.startOfMonth d), amount p)]
                     | None => []
                     end) payments.

(** The [(dateKey, amount)] pairs the loop feeds to [timelineMap]. *)
Definition day_keyed (payments : list PaymentData) : list (string * float) :=
  flat_map (fun p => match paid_with_date p with
                     | Some d => [(Date.format_MMM_dd d, amount p)]
                     | None => []
                     end) payments.

(** Calendar months [(year, month)] in chronological order. *)
Definition chron_lt (a b : nat * nat) : Prop :=
  fst a < fst b \/ (fst a = fst b /\ snd a < snd b).

(** A paid payment with a paid date in the calendar month [ym = (year, month)]. *)
Definition in_month (ym : nat * nat) (p : PaymentData) : bool :=
  match paid_with_date p with
  | Some d => (Date.year d =? fst ym)%nat && (Date.month d =? snd ym)%nat
  | None => false
  end.

(** The chart entry of a calendar month: label, left-to-right sum and number
    of the month's paid payments. *)
Definition month_bucket (payments : list PaymentData) (ym : nat * nat) : MonthlyEntry :=
  mkMonthlyEntry
    (Date.format_MMM_yyyy (Date.mk (fst ym) (snd ym) 1))
    (JS.sum (map amount (filter (in_month ym) payments)))
    (List.length (filter (in_month ym) payments)).

(** Every paid date is a calendar date with a four-digit year. *)
Definition paid_dates_valid (payments : list PaymentData) : Prop :=
  forall p d, In p payments -> paid_with_date p = Some d ->
    Date.valid d /\ 1000 <= Date.year d <= 9999.

Definition monthly_entries (payments : list PaymentData) : list MonthlyEntry :=
  map (fun '(month, data) => mkMonthlyEntry month (md_revenue data) (md_count data))
    (fold_left (accumulate monthly_update) (month_keyed payments) []).

Definition month_of_entry (e : MonthlyEntry) : nat * nat :=
  match Date.parse_MMM_yyyy (me_month e) with
  | Some ym => ym
  | None => (0, 0)
  end.

Definition entry_time (e : MonthlyEntry) : Z :=
  Date.month_start_ms (fst (month_of_entry e)) (snd (month_of_entry e)).

(** A paid payment with a paid date whose day label is [label]. *)
Definition on_day (label : string) (p : PaymentData) : bool :=
  match paid_with_date p with
  | Some d => String.eqb (Date.format_MMM_dd d) label
  | None => false
  end.

(** The day labels of the paid payments, each once, in order of first
    appearance. *)
Definition day_labels (payments : list PaymentData) : list string :=
  first_occurrences (map fst (day_keyed payments)).

(** The running total of a day: [(total || 0) + amount] for each amount in
    turn. *)
Definition timeline_total (amts : list float) : float :=
  fold_left (fun total a => (JS.or_zero total + a)%float) amts 0%float.

Definition day_bucket (payments : list PaymentData) (label : string) : TimelineEntry :=
  mkTimelineEntry label (timeline_total (map amount (filter (on_day label) payments))).


(** [payment.status === "paid" && payment.paid_date] as a test. *)
Definition has_paid_date (p : PaymentData) : bool :=
  match paid_with_date p with
  | Some _ => true
  | None => false
  end.

Definition without_paid_date (p : PaymentData) : PaymentData :=
  mkPayment (amount p) (status p) None.

Definition is_paid (p : PaymentData) : bool := String.eqb (status p) "paid".

Definition is_outstanding (p : PaymentData) : bool :=
  String.eqb (status p) "pending" || String.eqb (status p) "overdue".

Definition status_allowed (p : PaymentData) : Prop :=
  status p = "paid" \/ status p = "pending" \/ status p = "overdue".

(** The columns of a client's payment that the dashboard reads. *)
Definition payment_data (row : ClientDetail.PaymentRow) : PaymentData :=
  mkPayment (ClientDetail.amount (ClientDetail.row_fields row))
    (ClientDetail.status (ClientDetail.row_fields row))
    (ClientDetail.paid_date (ClientDetail.row_fields row)).

Definition ledger_example : list PaymentData :=
  [ mkPayment 0.1 "paid" (Some (Date.mk 2024 3 10));
    mkPayment 0.1 "pending" None;
    mkPayment 100 "paid" (Some (Date.mk 2024 3 12)) ].

(** Paid payments over eight months, out of order, two of them in May 2024. *)
Definition eight_months : list PaymentData :=
  [ mkPayment 80 "paid" (Some (Date.mk 2024 5 3));
    mkPayment 10 "paid" (Some (Date.mk 2023 11 20));
    mkPayment 30 "paid" (Some (Date.mk 2024 1 15));
    mkPayment 99 "pending" None;
    mkPayment 20 "paid" (Some (Date.mk 2023 12 24));
    mkPayment 60 "paid" (Some (Date.mk 2024 4 1));
    mkPayment 40 "paid" (Some (Date.mk 2024 2 29));
    mkPayment 50 "paid" (Some (Date.mk 2024 3 31));
    mkPayment 70 "paid" (Some (Date.mk 2024 6 30));
    mkPayment 0.5 "paid" (Some (Date.mk 2024 5 17)) ].

(** The row left by a change: the field is set, and a change of quantity or
    unit price recomputes the amount. *)
Definition changed_item (item : Invoices.InvoiceItem) (change : Invoices.ItemChange)
  : Invoices.InvoiceItem :=
  match change with
  | Invoices.Description _ => Invoices.set_field item change
  | _ => Invoices.recompute_amount (Invoices.set_field item change)
  end.

Definition half_unit : Invoices.InvoiceItem := Invoices.mkItem None "A" 1 0.5 0.5.

Definition two_lines : list Invoices.InvoiceItem :=
  [ Invoices.mkItem None "A" 2 10 20; Invoices.mkItem None "B" 1 5 5 ].

(** The invariant of the payment data model on one set of columns. *)
Definition paid_date_invariant (f : ClientDetail.PaymentFields) : Prop :=
  ClientDetail.paid_date f <> None <-> ClientDetail.status f = "paid".

Definition pending_form : ClientDetail.PaymentForm :=
  ClientDetail.mkForm "120.50" "pending" "March retainer" "2024-03-31" "".

Definition paid_form : ClientDetail.PaymentForm :=
  ClientDetail.mkForm "120.50" "paid" "March retainer" "2024-03-31" "".

Definition paid_fields (d : Date.t) : ClientDetail.PaymentFields :=
  ClientDetail.mkFields 120.5 "paid" (Some "March retainer") (Some "2024-03-31")
    (Some d) None.

Definition in_current_month (clock : Expenses.Clock) (e : Expenses.Expense) : bool :=
  (Date.year (Expenses.date e) =? Date.year (Expenses.now clock))%nat
  && (Date.month (Expenses.date e) =? Date.month (Expenses.now clock))%nat.

(** A status one of the page's branches tests for. *)
Definition known_status (p : PaymentData) : bool :=
  String.eqb (status p) "paid" || String.eqb (status p) "pending"
  || String.eqb (status p) "overdue".

(** The dates of 10 March in two different years and of the day after. *)
Definition march_10_2023 : Date.t := Date.mk 2023 3 10.
Definition march_10_2024 : Date.t := Date.mk 2024 3 10.

(** The accumulators of [processChartData] after its loop. *)
Definition chart_acc (payments : list PaymentData) : ChartAcc :=
  fold_left forEach_body payments (mkChartAcc [] [] (mkStatusCount 0 0 0)).

(** A paid payment of NaN and a later one of 5 on the same day. *)
Definition nan_then_five : list PaymentData :=
  [ mkPayment nan "paid" (Some march_10_2024) ].

(** A line whose amount is the product of its quantity and unit price. *)
Definition line_consistent (item : Invoices.InvoiceItem) : Prop :=
  Invoices.amount item = (Invoices.quantity item * Invoices.unit_price item)%float.

(** A line whose quantity and unit price are numbers. *)
Definition line_numbers (item : Invoices.InvoiceItem) : Prop :=
  is_nan (Invoices.quantity item) = false /\ is_nan (Invoices.unit_price item) = false.

Definition page_invariant (page : InvoicePage.Page) : Prop :=
  InvoicePage.items page <> []
  /\ Forall line_consistent (InvoicePage.items page)
  /\ Forall line_numbers (InvoicePage.items page)
  /\ InvoicePage.editingInvoice page = None.

(** A prefix of a table: rows are only added at the end. *)
Definition extends {A : Type} (before after : list A) : Prop :=
  exists added, after = before ++ added.

(** The item rows of one invoice. *)
Definition items_of (invoice_id : string) (rows : list InvoicePage.ItemRow)
  : list InvoicePage.ItemRow :=
  filter (fun r => String.eqb (InvoicePage.item_invoice_id r) invoice_id) rows.

(** The rows of all other invoices. *)
Definition items_of_others (invoice_id : string) (rows : list InvoicePage.ItemRow)
  : list InvoicePage.ItemRow :=
  filter (fun r => negb (String.eqb (InvoicePage.item_invoice_id r) invoice_id)) rows.

(** A dialog after some typing: a second line is added, the first gets the
    quantity 3 and the price 19.99, the client and the number are chosen. *)
Definition typed_page : InvoicePage.Page :=
  InvoicePage.mkPage
    (InvoicePage.mkFormState "client-1" "INV-7" "2024-03-10" "" "draft" "" "0")
    [ Invoices.mkItem None "" 3 19.99 (3 * 19.99); InvoicePage.blank_item ]
    None true.

Definition no_faults : InvoicePage.Faults := InvoicePage.mkFaults false false false.

Definition empty_db : InvoicePage.Db := InvoicePage.mkDb [] [].

(** A sequence of events, one after the other. *)
Fixpoint run_events (parseFloat : string -> float) (today : string)
    (page : InvoicePage.Page) (events : list InvoicePage.Event)
  : option InvoicePage.Page :=
  match events with
  | [] => Some page
  | e :: rest =>
      match InvoicePage.step parseFloat today page e with
      | Some page' => run_events parseFloat today page' rest
      | None => None
      end
  end.

(** The typing that leads to [typed_page]. *)
Definition typing : list InvoicePage.Event :=
  [ InvoicePage.OpenChange true; InvoicePage.AddItem;
    InvoicePage.QuantityInput 0 "3"; InvoicePage.UnitPriceInput 0 "19.99";
    InvoicePage.SetClientId "client-1"; InvoicePage.SetInvoiceNumber "INV-7" ].

(** The same dialog with an invoice under edit, which no event brings about. *)
Definition editing_page : InvoicePage.Page :=
  InvoicePage.mkPage (InvoicePage.invoiceForm typed_page) (InvoicePage.items typed_page)
    (Some "inv-1") true.

(** A store holding invoice [inv-1] with one line, and a line of [inv-2]. *)
Definition one_invoice_db : InvoicePage.Db :=
  InvoicePage.mkDb
    [ InvoicePage.mkInvoiceRow "inv-1" "user-1" "client-1" "INV-1" "2024-02-01" "2024-03-01"
        "sent" 10 0 0 10 None ]
    [ InvoicePage.mkItemRow "inv-1" "old line" 1 10 10;
      InvoicePage.mkItemRow "inv-2" "other" 2 4 8 ].

(** The text of the amounts used in the examples. *)
Definition show_amount (x : float) : string :=
  if (x =? 120.5)%float then "120.5" else if (x =? 42)%float then "42" else "0".

(** A payment of 120.50 marked paid on 10 March 2024. *)
Definition paid_row : ClientDetail.PaymentRow :=
  ClientDetail.mkRow "pay-1" "client-1" "user-1" (paid_fields (Date.mk 2024 3 10)).

(** A document is selected, then a file is chosen. *)
Definition select_then_choose : list ClientPage.Event :=
  [ ClientPage.OpenChange true; ClientPage.SelectDocument "doc-1";
    ClientPage.ChooseFile "invoice.pdf" ].

Fixpoint run_dialog (toString : float -> string) (d : ClientPage.Dialog)
    (events : list ClientPage.Event) : option ClientPage.Dialog :=
  match events with
  | [] => Some d
  | e :: rest =>
      match ClientPage.step toString d e with
      | Some d' => run_dialog toString d' rest
      | None => None
      end
  end.

Definition file_chosen : ClientPage.Dialog :=
  ClientPage.mkDialog (ClientDetail.mkForm "" "pending" "" "" "") None
    (Some "invoice.pdf") true.

(** An expense of 42 for travel on 1 March 2024, with a receipt. *)
Definition travel_expense : ExpensePage.ExpenseRow :=
  ExpensePage.mkRow "exp-1"
    (ExpensePage.mkFields 42 (Some "Train") "2024-03-01" (Some "Travel") (Some "doc-9")).

(** A browser at UTC+1 and one at UTC-5, both on 15 March 2024. *)
Definition clock_east : Expenses.Clock := Expenses.mkClock (Date.mk 2024 3 15) 60.
Definition clock_west : Expenses.Clock := Expenses.mkClock (Date.mk 2024 3 15) (-300).

Definition march_expenses : list Expenses.Expense :=
  [ Expenses.mkExpense 40 (Date.mk 2024 3 1); Expenses.mkExpense 7 (Date.mk 2024 4 1);
    Expenses.mkExpense 2.5 (Date.mk 2024 3 20); Expenses.mkExpense 9 (Date.mk 2023 3 20) ].

(** A payment with status paid and a paid date in the calendar month
    [ym = (year, month)], read off the two columns. *)
Definition paid_in_month (ym : nat * nat) (p : PaymentData) : bool :=
  String.eqb (status p) "paid"
  && match paid_date p with
     | Some d => (Date.year d =? fst ym)%nat && (Date.month d =? snd ym)%nat
     | None => false
     end.

(** What the chart shows for a calendar month: its label, the left-to-right
    sum of the amounts paid in it and the number of payments paid in it. *)
Definition month_total (payments : list PaymentData) (ym : nat * nat) : MonthlyEntry :=
  mkMonthlyEntry
    (Date.format_MMM_yyyy (Date.mk (fst ym) (snd ym) 1))
    (JS.sum (map amount (filter (paid_in_month ym) payments)))
    (List.length (filter (paid_in_month ym) payments)).

(** The paid dates of the paid payments are calendar dates with four-digit
    years. *)
Definition paid_dates_calendar (payments : list PaymentData) : Prop :=
  forall p d, In p payments -> status p = "paid" -> paid_date p = Some d ->
    Date.valid d /\ 1000 <= Date.year d <= 9999.

(** The calendar month after the one of [d]. *)
Definition next_month (d : Date.t) : nat * nat :=
  if (Date.month d =? 12)%nat then (Date.year d + 1, 1)
  else (Date.year d, Date.month d + 1).

(** A browser at UTC-5 on 15 December 2024. *)
Definition clock_west_december : Expenses.Clock :=
  Expenses.mkClock (Date.mk 2024 12 15) (-300).

(** * Properties *)

(** ** Maps and the accumulate-by-key loop *)

Section MapFacts.
  Context {V : Type}.
  Implicit Types (m : JS.Map V) (k : string) (v : V).

Lemma Map_get_set_same m k v : JS.Map_get (JS.Map_set m k v) k = Some v.
Proof.
  induction m as [|[k' v'] m IH]; simpl.
  - now rewrite String.eqb_refl.
  - destruct (String.eqb k' k) eqn:E; simpl.
    + now rewrite String.eqb_refl.
    + now rewrite E.
Qed.

Lemma Map_get_set_other m k k' v :
  k <> k' -> JS.Map_get (JS.Map_set m k v) k' = JS.Map_get m k'.
Proof.
  intros Hne. induction m as [|[k0 v0] m IH]; simpl.
  - apply String.eqb_neq in Hne. now rewrite Hne.
  - destruct (String.eqb k0 k) eqn:E; simpl.
    + apply String.eqb_eq in E; subst k0.
      apply String.eqb_neq in Hne. now rewrite Hne.
    + now rewrite IH.
Qed.

Lemma Map_get_In m k : (exists v, JS.Map_get m k = Some v) <-> In k (map fst m).
Proof.
  induction m as [|[k0 v0] m IH]; simpl.
  - split; [intros [v Hv]; discriminate | tauto].
  - destruct (String.eqb k0 k) eqn:E.
    + apply String.eqb_eq in E. split; eauto.
    + apply String.eqb_neq in E. rewrite IH. tauto.
Qed.

Lemma Map_keys_set m k v :
  map fst (JS.Map_set m k v)
  = if existsb (String.eqb k) (map fst m) then map fst m else map fst m ++ [k].
Proof.
  induction m as [|[k0 v0] m IH]; simpl; [reflexivity|].
  rewrite (String.eqb_sym k k0).
  destruct (String.eqb k0 k) eqn:E; simpl.
  - apply String.eqb_eq in E. now subst.
  - rewrite IH. now destruct (existsb _ _).
Qed.

End MapFacts.

Section Accumulate.
  Context {V : Type} (update : option V -> float -> V).

Lemma accumulate_get kas : forall m k,
  JS.Map_get (fold_left (accumulate update) kas m) k
  = fold_left (fun o a => Some (update o a)) (amounts_at k kas) (JS.Map_get m k).
Proof.
  induction kas as [|[k0 a0] kas IH]; intros m k; [reflexivity|].
  cbn [fold_left]. rewrite IH. unfold accumulate, amounts_at. cbn [fst snd filter].
  destruct (String.eqb k0 k) eqn:E.
  - apply String.eqb_eq in E; subst. cbn [map fold_left].
    now rewrite Map_get_set_same.
  - apply String.eqb_neq in E. now rewrite Map_get_set_other.
Qed.

Lemma filter_filter_absent (seen : list string) k (l : list string) :
  existsb (String.eqb k) seen = true ->
  filter (fun x => negb (existsb (String.eqb x) seen))
         (filter (fun k' => negb (String.eqb k k')) l)
  = filter (fun x => negb (existsb (String.eqb x) seen)) l.
Proof.
  intros Hin. induction l as [|x l IH]; [reflexivity|]. cbn [filter].
  destruct (String.eqb k x) eqn:E; cbn [negb filter].
  - apply String.eqb_eq in E; subst x. rewrite Hin. cbn [negb]. exact IH.
  - now rewrite IH.
Qed.

Lemma filter_filter_snoc (seen : list string) k (l : list string) :
  filter (fun x => negb (existsb (String.eqb x) (seen ++ [k]))) l
  = filter (fun x => negb (existsb (String.eqb x) seen))
           (filter (fun k' => negb (String.eqb k k')) l).
Proof.
  induction l as [|x l IH]; [reflexivity|]. cbn [filter].
  rewrite existsb_app. cbn [existsb]. rewrite orb_false_r.
  rewrite (String.eqb_sym x k).
  destruct (String.eqb k x) eqn:E; cbn [negb filter].
  - rewrite orb_true_r. cbn [negb]. exact IH.
  - rewrite orb_false_r. now rewrite IH.
Qed.

Lemma accumulate_keys kas : forall m,
  map fst (fold_left (accumulate update) kas m)
  = map fst m
    ++ filter (fun k => negb (existsb (String.eqb k) (map fst m)))
         (first_occurrences (map fst kas)).
Proof.
  induction kas as [|[k0 a0] kas IH]; intros m.
  - cbn. now rewrite app_nil_r.
  - cbn [fold_left]. rewrite IH. unfold accumulate. cbn [fst snd].
    rewrite Map_keys_set. cbn [map first_occurrences filter fst].
    destruct (existsb (String.eqb k0) (map fst m)) eqn:E; cbn [negb].
    + now rewrite filter_filter_absent.
    + rewrite <- app_assoc. cbn [app]. now rewrite filter_filter_snoc.
Qed.

Lemma accumulate_keys_empty kas :
  map fst (fold_left (accumulate update) kas []) = first_occurrences (map fst kas).
Proof.
  rewrite accumulate_keys. cbn [map app existsb negb].
  induction (first_occurrences (map fst kas)) as [|x l IH]; [reflexivity|].
  cbn [filter]. now rewrite IH.
Qed.

End Accumulate.

(** ** The three accumulators of [processChartData], one at a time *)

Lemma forEach_monthlyMap payments : forall acc,
  monthlyMap (fold_left forEach_body payments acc)
  = fold_left (accumulate monthly_update) (month_keyed payments) (monthlyMap acc).
Proof.
  induction payments as [|p ps IH]; intros acc; [reflexivity|].
  cbn [fold_left month_keyed flat_map]. rewrite IH. fold (month_keyed ps).
  unfold forEach_body. destruct (paid_with_date p); cbn [monthlyMap app fold_left];
    reflexivity.
Qed.

Lemma forEach_timelineMap payments : forall acc,
  timelineMap (fold_left forEach_body payments acc)
  = fold_left (accumulate timeline_update) (day_keyed payments) (timelineMap acc).
Proof.
  induction payments as [|p ps IH]; intros acc; [reflexivity|].
  cbn [fold_left day_keyed flat_map]. rewrite IH. fold (day_keyed ps).
  unfold forEach_body. destruct (paid_with_date p); cbn [timelineMap app fold_left];
    reflexivity.
Qed.

Lemma forEach_statusCount payments : forall acc,
  statusCount (fold_left forEach_body payments acc)
  = fold_left statusCount_step payments (statusCount acc).
Proof.
  induction payments as [|p ps IH]; intros acc; [reflexivity|].
  cbn [fold_left]. rewrite IH. unfold forEach_body.
  destruct (paid_with_date p); reflexivity.
Qed.

Lemma statusCount_sums payments : forall sc,
  let sc' := fold_left statusCount_step payments sc in
  sc_paid sc' = fold_left add (amounts_with_status "paid" payments) (sc_paid sc)
  /\ sc_pending sc' = fold_left add (amounts_with_status "pending" payments) (sc_pending sc)
  /\ sc_overdue sc' = fold_left add (amounts_with_status "overdue" payments) (sc_overdue sc).
Proof.
  induction payments as [|p ps IH]; intros sc; [cbn; auto|].
  cbn zeta in *. cbn [fold_left].
  destruct (IH (statusCount_step sc p)) as (H1 & H2 & H3).
  rewrite H1, H2, H3. clear IH H1 H2 H3.
  unfold amounts_with_status, has_status, statusCount_step. cbn [filter].
  destruct (String.eqb (status p) "paid") eqn:E1.
  { apply String.eqb_eq in E1. rewrite E1. cbn. auto. }
  destruct (String.eqb (status p) "pending") eqn:E2.
  { apply String.eqb_eq in E2. rewrite E2. cbn. auto. }
  destruct (String.eqb (status p) "overdue") eqn:E3; cbn; auto.
Qed.

(** ** Month labels: reading back and ordering *)

(** Case analysis on a month number known to lie in [1..12]. *)
Ltac month_cases m :=
  destruct m as [|[|[|[|[|[|[|[|[|[|[|[|[|m]]]]]]]]]]]]]; try lia.

Lemma decimal_nonempty n : Date.decimal n <> "".
Proof.
  unfold Date.decimal. intros H.
  pose proof (NilEmpty.usu (Nat.to_uint n)) as U. rewrite H in U. cbn in U.
  injection U as U.
  pose proof (Unsigned.to_of (Nat.to_uint n)) as T.
  rewrite Unsigned.of_to in T. rewrite <- U in T at 2. cbn in T.
  rewrite <- U in T. discriminate.
Qed.

Lemma pad_nonempty w n : Date.pad w n <> "".
Proof.
  unfold Date.pad. destruct (w - String.length (Date.decimal n)); cbn.
  - apply decimal_nonempty.
  - discriminate.
Qed.

Lemma uint_of_string_zeros k s :
  NilEmpty.uint_of_string (Date.zeros k ++ s)
  = option_map (Nat.iter k Decimal.D0) (NilEmpty.uint_of_string s).
Proof.
  induction k as [|k IH]; cbn [Date.zeros String.append Nat.iter].
  - now destruct (NilEmpty.uint_of_string s).
  - cbn [NilEmpty.uint_of_string]. rewrite IH.
    now destruct (NilEmpty.uint_of_string s).
Qed.

Lemma of_uint_leading_zeros k u :
  Nat.of_uint (Nat.iter k Decimal.D0 u) = Nat.of_uint u.
Proof.
  induction k as [|k IH]; [reflexivity|]. cbn [Nat.iter]. exact IH.
Qed.

Lemma uint_of_string_pad w n :
  exists u, NilEmpty.uint_of_string (Date.pad w n) = Some u /\ Nat.of_uint u = n.
Proof.
  unfold Date.pad, Date.decimal. rewrite uint_of_string_zeros, NilEmpty.usu.
  eexists; split; [reflexivity|].
  rewrite of_uint_leading_zeros. apply Unsigned.of_to.
Qed.

Lemma parse_format d :
  1 <= Date.month d <= 12 ->
  Date.parse_MMM_yyyy (Date.format_MMM_yyyy d) = Some (Date.year d, Date.month d).
Proof.
  destruct d as [y m dd]. cbn [Date.month Date.year]. intros Hm.
  destruct (uint_of_string_pad 4 y) as (u & Hu & Hy).
  pose proof (pad_nonempty 4 y) as Hne.
  unfold Date.format_MMM_yyyy. cbn [Date.month Date.year].
  month_cases m;
    cbn [Date.MMM Nat.sub nth Date.month_names String.append];
    unfold Date.parse_MMM_yyyy; rewrite Hu;
    destruct (Date.pad 4 y); try congruence; cbn; now rewrite Hy.
Qed.

Lemma parse_format_start d :
  1 <= Date.month d <= 12 ->
  Date.parse_MMM_yyyy (Date.format_MMM_yyyy (Date.startOfMonth d))
  = Some (Date.year d, Date.month d).
Proof. intros H. now rewrite parse_format. Qed.

Lemma days_before_year_mono y y' :
  (y < y')%Z -> (Date.days_before_year y + 365 * (y' - y) <= Date.days_before_year y')%Z.
Proof.
  intros H. unfold Date.days_before_year.
  Z.div_mod_to_equations. lia.
Qed.

Lemma days_before_month_bounds leap m :
  1 <= m <= 12 -> (0 <= Date.days_before_month leap m <= 335)%Z.
Proof.
  intros Hm. unfold Date.days_before_month.
  month_cases m; destruct leap; cbn; lia.
Qed.

Lemma days_before_month_mono leap m m' :
  1 <= m -> m < m' -> m' <= 12 ->
  (Date.days_before_month leap m < Date.days_before_month leap m')%Z.
Proof.
  intros H1 H2 H3. unfold Date.days_before_month.
  month_cases m; month_cases m'; destruct leap; cbn; lia.
Qed.

Lemma month_start_ms_lt a b :
  1 <= snd a <= 12 -> 1 <= snd b <= 12 -> chron_lt a b ->
  (Date.month_start_ms (fst a) (snd a) < Date.month_start_ms (fst b) (snd b))%Z.
Proof.
  destruct a as [y m], b as [y' m']. unfold chron_lt. cbn [fst snd].
  intros Hm Hm' [Hy | [-> Hlt]]; unfold Date.month_start_ms.
  - pose proof (days_before_year_mono (Z.of_nat y) (Z.of_nat y') ltac:(lia)).
    pose proof (days_before_month_bounds (Date.is_leap (Z.of_nat y)) m Hm).
    pose proof (days_before_month_bounds (Date.is_leap (Z.of_nat y')) m' Hm').
    lia.
  - pose proof (days_before_month_mono (Date.is_leap (Z.of_nat y')) m m'
                  ltac:(lia) Hlt ltac:(lia)).
    lia.
Qed.

Lemma chron_trichotomy a b : chron_lt a b \/ a = b \/ chron_lt b a.
Proof.
  destruct a as [y m], b as [y' m']. unfold chron_lt. cbn [fst snd].
  destruct (Nat.lt_trichotomy y y') as [?|[->|?]]; auto.
  destruct (Nat.lt_trichotomy m m') as [?|[->|?]]; auto.
Qed.

(** ** [sort] and [slice] *)

Section SortFacts.
  Context {A : Type}.

Lemma sort_insert_perm (cmp : A -> A -> Z) x l :
  Permutation (JS.sort_insert cmp x l) (x :: l).
Proof.
  induction l as [|y l IH]; cbn [JS.sort_insert]; [reflexivity|].
  destruct (cmp x y <=? 0)%Z; [reflexivity|].
  rewrite IH. apply perm_swap.
Qed.

Lemma sort_perm (cmp : A -> A -> Z) l : Permutation (JS.sort cmp l) l.
Proof.
  induction l as [|x l IH]; cbn [JS.sort]; [reflexivity|].
  rewrite sort_insert_perm. now constructor.
Qed.

Lemma sort_insert_ext (cmp cmp' : A -> A -> Z) x l :
  (forall b, In b l -> cmp x b = cmp' x b) ->
  JS.sort_insert cmp x l = JS.sort_insert cmp' x l.
Proof.
  induction l as [|y l IH]; intros H; cbn [JS.sort_insert]; [reflexivity|].
  rewrite (H y (or_introl eq_refl)), IH; [reflexivity|].
  intros b Hb. apply H. now right.
Qed.

Lemma sort_ext (cmp cmp' : A -> A -> Z) l :
  (forall a b, In a l -> In b l -> cmp a b = cmp' a b) ->
  JS.sort cmp l = JS.sort cmp' l.
Proof.
  induction l as [|x l IH]; intros H; cbn [JS.sort]; [reflexivity|].
  rewrite IH by (intros; apply H; now right).
  apply sort_insert_ext. intros b Hb. apply H; [now left|right].
  eapply Permutation_in; [apply sort_perm|exact Hb].
Qed.

  Variable time : A -> Z.

Lemma sort_insert_sorted x l :
  StronglySorted (fun a b => time a <= time b)%Z l ->
  StronglySorted (fun a b => time a <= time b)%Z
    (JS.sort_insert (fun a b => time a - time b)%Z x l).
Proof.
  induction 1 as [|y l Hl IH Hy]; cbn [JS.sort_insert].
  - repeat constructor.
  - destruct (time x - time y <=? 0)%Z eqn:E.
    + apply Z.leb_le in E. constructor; [now constructor|].
      constructor; [lia|]. eapply Forall_impl; [|exact Hy]. cbn. intros; lia.
    + apply Z.leb_gt in E. constructor; [exact IH|].
      eapply Permutation_Forall; [symmetry; apply sort_insert_perm|].
      constructor; [lia|exact Hy].
Qed.

Lemma sort_sorted l :
  StronglySorted (fun a b => time a <= time b)%Z
    (JS.sort (fun a b => time a - time b)%Z l).
Proof.
  induction l as [|x l IH]; cbn [JS.sort]; [constructor|].
  now apply sort_insert_sorted.
Qed.

End SortFacts.

Lemma slice_last_length {A : Type} n (l : list A) :
  List.length (JS.slice_last n l) <= n.
Proof. unfold JS.slice_last. rewrite length_skipn. lia. Qed.

Lemma slice_last_map {A B : Type} (f : A -> B) n (l : list A) :
  JS.slice_last n (map f l) = map f (JS.slice_last n l).
Proof. unfold JS.slice_last. now rewrite length_map, skipn_map. Qed.

Lemma slice_last_incl {A : Type} n (l : list A) x :
  In x (JS.slice_last n l) -> In x l.
Proof.
  unfold JS.slice_last. intros H.
  rewrite <- (firstn_skipn (List.length l - n) l). apply in_or_app. now right.
Qed.

Lemma strongly_sorted_strengthen {A : Type} (R R' : A -> A -> Prop) l :
  StronglySorted R l -> NoDup l ->
  (forall a b, In a l -> In b l -> R a b -> a <> b -> R' a b) ->
  StronglySorted R' l.
Proof.
  induction 1 as [|x l Hl IH Hx]; intros Hnd Himp; constructor.
  - apply IH; [now inversion Hnd|]. intros; apply Himp; auto; now right.
  - inversion Hnd as [|? ? Hnotin Hnd']; subst.
    rewrite Forall_forall in *. intros y Hy.
    apply Himp; [now left|now right|now apply Hx|].
    intros ->. contradiction.
Qed.

(** ** Keys in order of first occurrence *)

Lemma first_occurrences_In ks k : In k (first_occurrences ks) <-> In k ks.
Proof.
  induction ks as [|k0 ks IH]; cbn [first_occurrences In]; [tauto|].
  rewrite filter_In, IH.
  destruct (String.eqb_spec k0 k) as [->|Hne]; cbn; intuition congruence.
Qed.

Lemma first_occurrences_NoDup ks : NoDup (first_occurrences ks).
Proof.
  induction ks as [|k0 ks IH]; cbn [first_occurrences]; constructor.
  - rewrite filter_In. intros [_ H]. now rewrite String.eqb_refl in H.
  - now apply NoDup_filter.
Qed.

Lemma Map_get_of_In {V : Type} (m : JS.Map V) k v :
  NoDup (map fst m) -> In (k, v) m -> JS.Map_get m k = Some v.
Proof.
  induction m as [|[k0 v0] m IH]; cbn [map fst In JS.Map_get]; [tauto|].
  intros Hnd [Heq | Hin].
  - injection Heq as -> ->. now rewrite String.eqb_refl.
  - inversion Hnd as [|? ? Hnotin Hnd']; subst.
    destruct (String.eqb_spec k0 k) as [->|Hne].
    + exfalso. apply Hnotin. change k with (fst (k, v)). now apply in_map.
    + now apply IH.
Qed.

(** ** Monthly revenue *)

Lemma month_label_eqb d ym :
  1 <= Date.month d <= 12 -> 1 <= snd ym <= 12 ->
  String.eqb (Date.format_MMM_yyyy (Date.startOfMonth d))
             (Date.format_MMM_yyyy (Date.mk (fst ym) (snd ym) 1))
  = (Date.year d =? fst ym)%nat && (Date.month d =? snd ym)%nat.
Proof.
  intros Hd Hm. destruct ym as [y m]. cbn [fst snd] in *.
  destruct (String.eqb_spec (Date.format_MMM_yyyy (Date.startOfMonth d))
                            (Date.format_MMM_yyyy (Date.mk y m 1))) as [E|E].
  - apply (f_equal Date.parse_MMM_yyyy) in E.
    rewrite parse_format_start in E by exact Hd.
    rewrite parse_format in E by exact Hm. cbn in E.
    injection E as -> ->. now rewrite !Nat.eqb_refl.
  - destruct (Nat.eqb_spec (Date.year d) y) as [<-|]; [|reflexivity].
    destruct (Nat.eqb_spec (Date.month d) m) as [<-|]; [|reflexivity].
    now contradiction E.
Qed.

Lemma month_keyed_In payments k :
  In k (map fst (month_keyed payments)) <->
  exists p d, In p payments /\ paid_with_date p = Some d
              /\ k = Date.format_MMM_yyyy (Date.startOfMonth d).
Proof.
  unfold month_keyed. rewrite in_map_iff. split.
  - intros ([k' a] & <- & Hin). apply in_flat_map in Hin.
    destruct Hin as (p & Hp & Hin). destruct (paid_with_date p) as [d|] eqn:E.
    + destruct Hin as [[= <- <-]|[]]. now exists p, d.
    + destruct Hin.
  - intros (p & d & Hp & E & ->).
    exists (Date.format_MMM_yyyy (Date.startOfMonth d), amount p). split; [reflexivity|].
    apply in_flat_map. exists p. split; [exact Hp|]. rewrite E. now left.
Qed.

Lemma month_amounts payments ym :
  paid_dates_valid payments -> 1 <= snd ym <= 12 ->
  amounts_at (Date.format_MMM_yyyy (Date.mk (fst ym) (snd ym) 1)) (month_keyed payments)
  = map amount (filter (in_month ym) payments).
Proof.
  intros Hv Hm. induction payments as [|p ps IH]; [reflexivity|].
  assert (Hps : paid_dates_valid ps)
    by (intros q d Hq; apply Hv; now right).
  specialize (IH Hps). unfold amounts_at in *.
  cbn [month_keyed flat_map filter]. fold (month_keyed ps).
  rewrite filter_app, map_app, IH. unfold in_month at 2.
  destruct (paid_with_date p) as [d|] eqn:E; [|reflexivity].
  cbn [filter fst]. rewrite month_label_eqb; [|apply (Hv p d); [now left|exact E]|exact Hm].
  now destruct (_ && _).
Qed.

Lemma monthly_fold_some amts : forall r c,
  fold_left (fun o a => Some (monthly_update o a)) amts (Some (mkMonthlyData r c))
  = Some (mkMonthlyData (fold_left add amts r) (c + List.length amts)).
Proof.
  induction amts as [|a amts IH]; intros r c; cbn [fold_left List.length].
  - now rewrite Nat.add_0_r.
  - unfold monthly_update at 2. cbn [md_revenue md_count]. rewrite IH.
    do 2 f_equal. lia.
Qed.

Lemma monthly_fold amts :
  amts <> [] ->
  fold_left (fun o a => Some (monthly_update o a)) amts None
  = Some (mkMonthlyData (JS.sum amts) (List.length amts)).
Proof.
  destruct amts as [|a amts]; [congruence|]. intros _.
  cbn [fold_left]. unfold monthly_update at 2. cbn [md_revenue md_count].
  now rewrite monthly_fold_some.
Qed.

Lemma monthly_entries_NoDup payments : NoDup (map me_month (monthly_entries payments)).
Proof.
  unfold monthly_entries. rewrite map_map.
  rewrite (map_ext _ fst) by (now intros [k v]).
  rewrite accumulate_keys_empty. apply first_occurrences_NoDup.
Qed.

Lemma monthly_entry_bucket payments e :
  paid_dates_valid payments -> In e (monthly_entries payments) ->
  exists ym, e = month_bucket payments ym /\ 1 <= snd ym <= 12
             /\ exists p, In p payments /\ in_month ym p = true.
Proof.
  intros Hv Hin. unfold monthly_entries in Hin. apply in_map_iff in Hin.
  destruct Hin as ([k data] & <- & Hin).
  set (M := fold_left (accumulate monthly_update) (month_keyed payments) []) in *.
  assert (Hk : In k (map fst M)) by (change k with (fst (k, data)); now apply in_map).
  assert (Hget : JS.Map_get M k = Some data).
  { apply Map_get_of_In; [|exact Hin]. unfold M. rewrite accumulate_keys_empty.
    apply first_occurrences_NoDup. }
  unfold M in Hk. rewrite accumulate_keys_empty, first_occurrences_In in Hk.
  apply month_keyed_In in Hk. destruct Hk as (p & d & Hp & E & ->).
  destruct (Hv p d Hp E) as [[Hmonth _] _].
  exists (Date.year d, Date.month d). cbn [fst snd].
  assert (Hp' : in_month (Date.year d, Date.month d) p = true).
  { unfold in_month. rewrite E. cbn [fst snd]. now rewrite !Nat.eqb_refl. }
  split; [|split; [exact Hmonth|now exists p]].
  unfold M in Hget. rewrite accumulate_get in Hget. cbn [JS.Map_get] in Hget.
  change (Date.startOfMonth d) with
    (Date.mk (fst (Date.year d, Date.month d)) (snd (Date.year d, Date.month d)) 1) in Hget.
  rewrite month_amounts in Hget by (cbn [snd]; auto).
  rewrite monthly_fold in Hget.
  - injection Hget as <-. unfold month_bucket. cbn [md_revenue md_count fst snd].
    now rewrite length_map.
  - intros Hnil. apply map_eq_nil in Hnil.
    assert (Hf : In p (filter (in_month (Date.year d, Date.month d)) payments))
      by (apply filter_In; auto).
    rewrite Hnil in Hf. destruct Hf.
Qed.

Lemma month_of_bucket payments ym :
  1 <= snd ym <= 12 -> month_of_entry (month_bucket payments ym) = ym.
Proof.
  intros Hm. unfold month_of_entry, month_bucket. cbn [me_month].
  rewrite parse_format by exact Hm. now destruct ym.
Qed.

Lemma NoDup_map_transfer {A B C : Type} (f : A -> B) (g : A -> C) l :
  NoDup (map f l) ->
  (forall x y, In x l -> In y l -> g x = g y -> f x = f y) ->
  NoDup (map g l).
Proof.
  induction l as [|x l IH]; cbn [map]; intros Hnd Hfg; constructor.
  - inversion Hnd as [|? ? Hnotin _]; subst. intros Hin.
    apply in_map_iff in Hin. destruct Hin as (y & Hy & Hin).
    apply Hnotin. apply in_map_iff. exists y. split; [|exact Hin].
    apply Hfg; [now right|now left|exact Hy].
  - apply IH; [now inversion Hnd|]. intros; apply Hfg; auto; now right.
Qed.

Lemma StronglySorted_map {A B : Type} (R : B -> B -> Prop) (f : A -> B) l :
  StronglySorted (fun a b => R (f a) (f b)) l -> StronglySorted R (map f l).
Proof.
  induction 1 as [|x l Hl IH Hx]; cbn [map]; constructor; [exact IH|].
  rewrite Forall_forall in *. intros y Hy. apply in_map_iff in Hy.
  destruct Hy as (a & <- & Ha). now apply Hx.
Qed.

Lemma compare_months_time payments a b :
  paid_dates_valid payments ->
  In a (monthly_entries payments) -> In b (monthly_entries payments) ->
  compare_months a b = (entry_time a - entry_time b)%Z.
Proof.
  intros Hv Ha Hb.
  destruct (monthly_entry_bucket _ _ Hv Ha) as (ya & -> & Hma & _).
  destruct (monthly_entry_bucket _ _ Hv Hb) as (yb & -> & Hmb & _).
  unfold compare_months, entry_time. rewrite !month_of_bucket by assumption.
  unfold Date.getTime_of_label, month_bucket. cbn [me_month].
  rewrite !parse_format by assumption. cbn [Date.year Date.month].
  now destruct ya, yb.
Qed.

Lemma processChartData_monthly payments :
  monthly (processChartData payments)
  = JS.slice_last 6 (JS.sort compare_months (monthly_entries payments)).
Proof.
  unfold processChartData. cbn [monthly]. rewrite forEach_monthlyMap. reflexivity.
Qed.

(** The series before any reading of it: the months with a paid payment in
    ascending order, cut by [slice(-6)], each with its bucket. *)
Lemma monthly_series_sliced payments :
  paid_dates_valid payments ->
  exists months : list (nat * nat),
    (forall ym, In ym months <-> exists p, In p payments /\ in_month ym p = true)
    /\ StronglySorted chron_lt months
    /\ monthly (processChartData payments)
       = map (month_bucket payments) (JS.slice_last 6 months)
    /\ List.length (monthly (processChartData payments)) <= 6.
Proof.
  intros Hv. rewrite processChartData_monthly.
  set (entries := monthly_entries payments).
  set (sorted := JS.sort compare_months entries).
  assert (Hperm : Permutation sorted entries) by apply sort_perm.
  assert (Hin : forall e, In e sorted -> In e entries)
    by (intros e; apply Permutation_in; exact Hperm).
  assert (Hbucket : forall e, In e sorted ->
            exists ym, e = month_bucket payments ym /\ 1 <= snd ym <= 12
                       /\ exists p, In p payments /\ in_month ym p = true)
    by (intros e He; apply monthly_entry_bucket; auto).
  exists (map month_of_entry sorted). repeat split.
  - (* every listed month has a paid payment *)
    intros H. apply in_map_iff in H. destruct H as (e & <- & He).
    destruct (Hbucket e He) as (ym' & -> & Hm & Hp).
    now rewrite month_of_bucket.
  - (* every month with a paid payment is listed *)
    intros (p & Hp & Hpm). unfold in_month in Hpm.
    destruct (paid_with_date p) as [d|] eqn:E; [|discriminate].
    apply andb_true_iff in Hpm. destruct Hpm as [Hy Hm].
    apply Nat.eqb_eq in Hy, Hm.
    destruct (Hv p d Hp E) as [[Hmonth _] _].
    assert (Hk : In (Date.format_MMM_yyyy (Date.startOfMonth d))
                    (map me_month entries)).
    { unfold entries, monthly_entries. rewrite map_map.
      rewrite (map_ext _ fst) by (now intros [k v]).
      rewrite accumulate_keys_empty, first_occurrences_In.
      apply month_keyed_In. now exists p, d. }
    apply in_map_iff in Hk. destruct Hk as (e & He & Hine).
    apply in_map_iff. exists e. split.
    + unfold month_of_entry. rewrite He, parse_format_start by exact Hmonth.
      destruct ym; cbn [fst snd] in *; congruence.
    + eapply Permutation_in; [symmetry; exact Hperm|exact Hine].
  - (* strictly ascending *)
    assert (Hsorted : StronglySorted (fun a b => entry_time a <= entry_time b)%Z sorted).
    { unfold sorted.
      rewrite (sort_ext compare_months (fun a b => entry_time a - entry_time b)%Z)
        by (intros; now apply (compare_months_time payments)).
      apply sort_sorted. }
    apply (strongly_sorted_strengthen
             (fun a b => Date.month_start_ms (fst a) (snd a)
                         <= Date.month_start_ms (fst b) (snd b))%Z).
    + now apply StronglySorted_map.
    + apply (NoDup_map_transfer me_month).
      * eapply Permutation_NoDup; [apply Permutation_map; symmetry; exact Hperm|].
        apply monthly_entries_NoDup.
      * intros x y Hx Hy Heq.
        destruct (Hbucket x Hx) as (yx & -> & Hmx & _).
        destruct (Hbucket y Hy) as (yy & -> & Hmy & _).
        rewrite !month_of_bucket in Heq by assumption. now subst.
    + intros a b Ha Hb Hle Hne.
      apply in_map_iff in Ha, Hb.
      destruct Ha as (ea & <- & Hea), Hb as (eb & <- & Heb).
      destruct (Hbucket ea Hea) as (ya & -> & Hma & _).
      destruct (Hbucket eb Heb) as (yb & -> & Hmb & _).
      rewrite !month_of_bucket in * by assumption.
      destruct (chron_trichotomy ya yb) as [Hlt|[Heq|Hgt]]; [exact Hlt|contradiction|].
      pose proof (month_start_ms_lt yb ya Hmb Hma Hgt). lia.
  - (* the series itself *)
    rewrite <- slice_last_map, map_map.
    f_equal. symmetry. rewrite <- (map_id sorted) at 2.
    apply map_ext_in. intros e He.
    destruct (Hbucket e He) as (ym & -> & Hm & _).
    now rewrite month_of_bucket.
  - apply slice_last_length.
Qed.

(** ** Daily timeline *)

Lemma Map_entries_by_get {V : Type} (m : JS.Map V) (f : string -> V) :
  NoDup (map fst m) ->
  (forall k, In k (map fst m) -> JS.Map_get m k = Some (f k)) ->
  m = map (fun k => (k, f k)) (map fst m).
Proof.
  induction m as [|[k0 v0] m IH]; cbn [map fst]; intros Hnd Hget; [reflexivity|].
  inversion Hnd as [|? ? Hnotin Hnd']; subst. f_equal.
  - specialize (Hget k0 (or_introl eq_refl)). cbn [JS.Map_get] in Hget.
    rewrite String.eqb_refl in Hget. now injection Hget as ->.
  - apply IH; [exact Hnd'|]. intros k Hk.
    specialize (Hget k (or_intror Hk)). cbn [JS.Map_get] in Hget.
    destruct (String.eqb_spec k0 k) as [->|_]; [contradiction|exact Hget].
Qed.

Lemma amounts_at_nonempty k (kas : list (string * float)) :
  In k (map fst kas) -> amounts_at k kas <> [].
Proof.
  intros Hin Hnil. apply in_map_iff in Hin. destruct Hin as ([k' a] & <- & Hin).
  unfold amounts_at in Hnil. apply map_eq_nil in Hnil.
  assert (H : In (k', a) (filter (fun ka => String.eqb (fst ka) (fst (k', a))) kas)).
  { apply filter_In. split; [exact Hin|]. apply String.eqb_refl. }
  rewrite Hnil in H. destruct H.
Qed.

Lemma day_amounts payments label :
  amounts_at label (day_keyed payments) = map amount (filter (on_day label) payments).
Proof.
  induction payments as [|p ps IH]; [reflexivity|]. unfold amounts_at in *.
  cbn [day_keyed flat_map filter]. fold (day_keyed ps).
  rewrite filter_app, map_app, IH. unfold on_day at 2.
  destruct (paid_with_date p) as [d|]; [|reflexivity].
  cbn [filter fst]. now destruct (String.eqb _ _).
Qed.

Lemma timeline_fold_some amts : forall v,
  fold_left (fun o a => Some (timeline_update o a)) amts (Some v)
  = Some (fold_left (fun total a => (JS.or_zero total + a)%float) amts v).
Proof.
  induction amts as [|a amts IH]; intros v; [reflexivity|].
  cbn [fold_left]. unfold timeline_update at 2. now rewrite IH.
Qed.

Lemma timeline_fold amts :
  amts <> [] ->
  fold_left (fun o a => Some (timeline_update o a)) amts None
  = Some (timeline_total amts).
Proof.
  destruct amts as [|a amts]; [congruence|]. intros _.
  cbn [fold_left]. unfold timeline_update at 2. now rewrite timeline_fold_some.
Qed.


Lemma processChartData_timeline payments :
  timeline (processChartData payments)
  = JS.slice_last 30
      (map (fun '(date, revenue) => mkTimelineEntry date revenue)
         (fold_left (accumulate timeline_update) (day_keyed payments) [])).
Proof.
  unfold processChartData. cbn [timeline]. rewrite forEach_timelineMap. reflexivity.
Qed.

Lemma timeline_entries payments :
  map (fun '(date, revenue) => mkTimelineEntry date revenue)
    (fold_left (accumulate timeline_update) (day_keyed payments) [])
  = map (day_bucket payments) (day_labels payments).
Proof.
  set (T := fold_left (accumulate timeline_update) (day_keyed payments) []).
  assert (Hkeys : map fst T = day_labels payments)
    by apply accumulate_keys_empty.
  rewrite (Map_entries_by_get T
             (fun k => timeline_total (map amount (filter (on_day k) payments)))).
  - rewrite Hkeys, map_map. reflexivity.
  - rewrite Hkeys. apply first_occurrences_NoDup.
  - intros k Hk. rewrite Hkeys in Hk. unfold day_labels in Hk.
    rewrite first_occurrences_In in Hk.
    unfold T. rewrite accumulate_get. cbn [JS.Map_get].
    rewrite timeline_fold by now apply amounts_at_nonempty.
    now rewrite day_amounts.
Qed.


(** ** Status distribution *)

(** C6.  The status distribution adds the amounts of all payments, whatever
    their paid date, separately for the statuses paid, pending and overdue,
    and lists the statuses whose sum is strictly positive in the fixed order
    Paid, Pending, Overdue; a status with a zero sum has no entry.  Payments
    of 100.00 paid, 50.00 pending and 25.00 overdue give exactly the three
    entries 100, 50, 25 in that order. *)
Theorem status_distribution_spec :
  (forall payments,
     statusDistribution (processChartData payments)
     = filter (fun item => JS.gt_zero (se_value item))
         [ mkStatusEntry "Paid" (JS.sum (amounts_with_status "paid" payments))
             "hsl(var(--success))";
           mkStatusEntry "Pending" (JS.sum (amounts_with_status "pending" payments))
             "hsl(var(--warning))";
           mkStatusEntry "Overdue" (JS.sum (amounts_with_status "overdue" payments))
             "hsl(var(--destructive))" ])
  /\ (forall payments item,
        In item (statusDistribution (processChartData payments)) ->
        (0 <? se_value item)%float = true)
  /\ statusDistribution (processChartData
       [ mkPayment 100 "paid" (Some (Date.mk 2024 3 10));
         mkPayment 50 "pending" None;
         mkPayment 25 "overdue" None ])
     = [ mkStatusEntry "Paid" 100 "hsl(var(--success))";
         mkStatusEntry "Pending" 50 "hsl(var(--warning))";
         mkStatusEntry "Overdue" 25 "hsl(var(--destructive))" ]
  /\ statusDistribution (processChartData
       [ mkPayment 100 "paid" None; mkPayment 0 "pending" None ])
     = [ mkStatusEntry "Paid" 100 "hsl(var(--success))" ].
Proof.
  split; [|split; [|split]].
  - intros payments. unfold processChartData. cbn [statusDistribution].
    rewrite forEach_statusCount. cbn [statusCount].
    destruct (statusCount_sums payments (mkStatusCount 0 0 0)) as (H1 & H2 & H3).
    cbn zeta in H1, H2, H3. rewrite H1, H2, H3. reflexivity.
  - intros payments item Hin. unfold processChartData in Hin.
    cbn [statusDistribution] in Hin. apply filter_In in Hin. apply Hin.
  - vm_compute. reflexivity.
  - vm_compute. reflexivity.
Qed.

(** ** Which payments the three series read *)

Lemma month_keyed_filter payments :
  month_keyed (filter has_paid_date payments) = month_keyed payments.
Proof.
  induction payments as [|p ps IH]; [reflexivity|].
  cbn [filter]. unfold has_paid_date at 1.
  destruct (paid_with_date p) as [d|] eqn:E; cbn [month_keyed flat_map];
    fold (month_keyed ps); fold (month_keyed (filter has_paid_date ps));
    rewrite ?E, IH; reflexivity.
Qed.

Lemma day_keyed_filter payments :
  day_keyed (filter has_paid_date payments) = day_keyed payments.
Proof.
  induction payments as [|p ps IH]; [reflexivity|].
  cbn [filter]. unfold has_paid_date at 1.
  destruct (paid_with_date p) as [d|] eqn:E; cbn [day_keyed flat_map];
    fold (day_keyed ps); fold (day_keyed (filter has_paid_date ps));
    rewrite ?E, IH; reflexivity.
Qed.

Lemma statusCount_without_paid_date payments : forall sc,
  fold_left statusCount_step (map without_paid_date payments) sc
  = fold_left statusCount_step payments sc.
Proof.
  induction payments as [|p ps IH]; intros sc; [reflexivity|].
  cbn [map fold_left]. now rewrite IH.
Qed.

(** C5, as the code has it.  The monthly revenue and the daily timeline read
    only the payments with status paid and a paid date: dropping every other
    payment changes neither.  The status distribution reads the status and
    the amount of every payment and never its paid date: erasing all paid
    dates leaves it unchanged. *)
Theorem series_inputs payments :
  monthly (processChartData payments)
  = monthly (processChartData (filter has_paid_date payments))
  /\ timeline (processChartData payments)
     = timeline (processChartData (filter has_paid_date payments))
  /\ statusDistribution (processChartData payments)
     = statusDistribution (processChartData (map without_paid_date payments)).
Proof.
  split; [|split].
  - rewrite !processChartData_monthly. unfold monthly_entries.
    now rewrite month_keyed_filter.
  - rewrite !processChartData_timeline. now rewrite day_keyed_filter.
  - unfold processChartData. cbn [statusDistribution].
    rewrite !forEach_statusCount. cbn [statusCount].
    now rewrite statusCount_without_paid_date.
Qed.

(** C5 as stated fails: a pending payment without a paid date is part of the
    status distribution. *)
Lemma null_paid_date_in_status_distribution :
  paid_date (mkPayment 50 "pending" None) = None
  /\ statusDistribution (processChartData [mkPayment 50 "pending" None])
     = [ mkStatusEntry "Pending" 50 "hsl(var(--warning))" ]
  /\ statusDistribution (processChartData []) = [].
Proof. repeat split; vm_compute; reflexivity. Qed.

(** ** Ledger totals ([loadStats]; the client page computes the same two
    figures with the same expressions over the client's payments) *)

Lemma fold_left_add_map {A : Type} (f : A -> float) l : forall acc,
  fold_left (fun sum x => (sum + f x)%float) l acc = fold_left add (map f l) acc.
Proof. induction l as [|x l IH]; intros acc; [reflexivity|]. cbn. apply IH. Qed.

(** The client page and the dashboard compute the same totals. *)
Lemma client_totals rows :
  ClientDetail.totalPaid rows = totalPaid (map payment_data rows)
  /\ ClientDetail.totalPending rows = totalPending (map payment_data rows).
Proof.
  unfold ClientDetail.totalPaid, ClientDetail.totalPending, totalPaid, totalPending.
  split.
  - generalize 0%float.
    induction rows as [|r rows IH]; intros acc; [reflexivity|].
    cbn [map filter]. unfold payment_data at 1. cbn [status].
    destruct (String.eqb _ "paid"); cbn [fold_left]; apply IH.
  - generalize 0%float.
    induction rows as [|r rows IH]; intros acc; [reflexivity|].
    cbn [map filter]. unfold payment_data at 1. cbn [status].
    destruct (_ || _); cbn [fold_left]; apply IH.
Qed.

Lemma paid_or_outstanding p :
  status_allowed p -> is_outstanding p = negb (is_paid p).
Proof.
  unfold status_allowed, is_outstanding, is_paid.
  intros [-> | [-> | ->]]; reflexivity.
Qed.

Lemma partition_by_status payments :
  Forall status_allowed payments ->
  Permutation (filter is_paid payments ++ filter is_outstanding payments) payments.
Proof.
  induction 1 as [|p ps Hp _ IH]; [reflexivity|].
  cbn [filter]. rewrite (paid_or_outstanding p Hp).
  destruct (is_paid p); cbn [negb app].
  - now constructor.
  - symmetry. apply Permutation_cons_app. now symmetry.
Qed.

(** C1, as the code has it.  With every status among paid, pending and
    overdue: the paid total is the left-to-right binary64 sum of the amounts
    of the paid payments, the outstanding total that of the pending and
    overdue ones; each payment is in exactly one of the two groups, so the
    two groups together are a rearrangement of all payments; without
    payments both totals are 0. *)
Theorem ledger_totals payments :
  Forall status_allowed payments ->
  totalPaid payments = JS.sum (map amount (filter is_paid payments))
  /\ totalPending payments = JS.sum (map amount (filter is_outstanding payments))
  /\ (forall p, In p payments -> is_paid p = negb (is_outstanding p))
  /\ Permutation (filter is_paid payments ++ filter is_outstanding payments) payments
  /\ totalPaid [] = 0%float /\ totalPending [] = 0%float.
Proof.
  intros Hall. split; [|split; [|split; [|split; [|split]]]].
  - unfold totalPaid. apply fold_left_add_map.
  - unfold totalPending. apply fold_left_add_map.
  - intros p Hp. rewrite Forall_forall in Hall.
    rewrite (paid_or_outstanding p (Hall p Hp)). now rewrite negb_involutive.
  - now apply partition_by_status.
  - reflexivity.
  - reflexivity.
Qed.

Lemma ledger_totals_witness :
  Forall status_allowed ledger_example
  /\ totalPaid ledger_example = JS.sum (map amount (filter is_paid ledger_example))
  /\ totalPending ledger_example
     = JS.sum (map amount (filter is_outstanding ledger_example))
  /\ (forall p, In p ledger_example -> is_paid p = negb (is_outstanding p))
  /\ Permutation (filter is_paid ledger_example ++ filter is_outstanding ledger_example)
       ledger_example
  /\ totalPaid [] = 0%float /\ totalPending [] = 0%float.
Proof.
  assert (H : Forall status_allowed ledger_example).
  { unfold ledger_example.
    repeat (apply Forall_cons; [unfold status_allowed; cbn [status]; auto|]).
    apply Forall_nil. }
  split; [exact H | exact (ledger_totals ledger_example H)].
Defined.

(** C1 as stated fails: with 0.10 paid, 0.10 pending and 100.00 paid, the two
    totals are 100.1 and 0.1, and their sum 100.19999999999999 is neither the
    sum of the three amounts taken in order nor the cent amount 100.20. *)
Lemma ledger_totals_do_not_add_up :
  Forall status_allowed ledger_example
  /\ (totalPaid ledger_example + totalPending ledger_example)%float
     <> JS.sum (map amount ledger_example)
  /\ (totalPaid ledger_example + totalPending ledger_example)%float <> 100.2%float
  /\ JS.sum (map amount ledger_example) = 100.2%float.
Proof.
  split; [|split; [|split]].
  - unfold ledger_example.
    repeat (apply Forall_cons; [unfold status_allowed; cbn [status]; auto|]).
    apply Forall_nil.
  - intros H. apply (f_equal (fun x => (x =? 100.2)%float)) in H.
    vm_compute in H. discriminate.
  - intros H. apply (f_equal (fun x => (x =? 100.2)%float)) in H.
    vm_compute in H. discriminate.
  - vm_compute. reflexivity.
Qed.

(** ** Monthly revenue: the six most recent months *)

Lemma StronglySorted_app_parts {A : Type} (R : A -> A -> Prop) l1 l2 :
  StronglySorted R (l1 ++ l2) ->
  StronglySorted R l2 /\ (forall x, In x l1 -> Forall (R x) l2).
Proof.
  induction l1 as [|a l1 IH]; cbn [app]; intros H.
  - split; [exact H|intros x []].
  - apply StronglySorted_inv in H. destruct H as [Hs Ha].
    destruct (IH Hs) as [H2 Hall]. split; [exact H2|].
    intros x [<-|Hx]; [|now apply Hall].
    apply Forall_app in Ha. apply Ha.
Qed.

Lemma slice_last_sorted {A : Type} (R : A -> A -> Prop) n (l : list A) :
  StronglySorted R l -> StronglySorted R (JS.slice_last n l).
Proof.
  unfold JS.slice_last. intros Hs.
  rewrite <- (firstn_skipn (List.length l - n) l) in Hs.
  now apply StronglySorted_app_parts in Hs.
Qed.

(** What [slice(-n)] drops from an ascending array comes before all it
    keeps, and it drops something only when it keeps [n]. *)
Lemma slice_last_recent {A : Type} (R : A -> A -> Prop) n (l : list A) x :
  StronglySorted R l -> In x l ->
  In x (JS.slice_last n l)
  \/ (List.length (JS.slice_last n l) = n /\ Forall (R x) (JS.slice_last n l)).
Proof.
  unfold JS.slice_last. intros Hs Hin.
  remember (List.length l - n) as k eqn:Hk.
  assert (Hsplit : firstn k l ++ skipn k l = l) by apply firstn_skipn.
  rewrite <- Hsplit in Hin. apply in_app_or in Hin.
  destruct Hin as [Hf|Hl]; [right|now left].
  split.
  - rewrite length_skipn. destruct k as [|k]; [destruct Hf|]. lia.
  - rewrite <- Hsplit in Hs at 1.
    destruct (StronglySorted_app_parts R _ _ Hs) as [_ Hall]. now apply Hall.
Qed.

Lemma in_month_paid ym p : in_month ym p = paid_in_month ym p.
Proof.
  unfold in_month, paid_in_month, paid_with_date.
  now destruct (String.eqb (status p) "paid").
Qed.

Lemma month_bucket_total payments ym :
  month_bucket payments ym = month_total payments ym.
Proof.
  unfold month_bucket, month_total.
  now rewrite (filter_ext _ _ (in_month_paid ym)).
Qed.

Lemma calendar_dates_valid payments :
  paid_dates_calendar payments -> paid_dates_valid payments.
Proof.
  intros Hc p d Hin E. unfold paid_with_date in E.
  destruct (String.eqb_spec (status p) "paid") as [Hs|]; [|discriminate].
  exact (Hc p d Hin Hs E).
Qed.

(** C4.  For payments whose paid dates are calendar dates with four-digit
    years, the monthly revenue series is the list of chart entries of some
    calendar months [(year, month)], at most six of them, in strictly
    ascending chronological order.  Each of these months has a payment with
    status paid and a paid date in it, and its entry carries the sum of the
    amounts and the number of exactly those payments.  The months shown are
    the most recent ones: a month with such a payment is either shown, or six
    months are shown and all six are later than it.  Paid payments spread
    over eight months, entered out of order, give the last six months from
    January to June 2024, with both payments of May in one entry. *)
Theorem monthly_revenue_spec :
  (forall payments, paid_dates_calendar payments ->
     exists months : list (nat * nat),
       monthly (processChartData payments) = map (month_total payments) months
       /\ List.length months <= 6
       /\ StronglySorted chron_lt months
       /\ (forall ym, In ym months ->
             exists p, In p payments /\ paid_in_month ym p = true)
       /\ (forall ym p, In p payments -> paid_in_month ym p = true ->
             In ym months
             \/ (List.length months = 6 /\ Forall (chron_lt ym) months)))
  /\ monthly (processChartData eight_months)
     = [ mkMonthlyEntry "Jan 2024" 30 1; mkMonthlyEntry "Feb 2024" 40 1;
         mkMonthlyEntry "Mar 2024" 50 1; mkMonthlyEntry "Apr 2024" 60 1;
         mkMonthlyEntry "May 2024" 80.5 2; mkMonthlyEntry "Jun 2024" 70 1 ].
Proof.
  split; [|vm_compute; reflexivity].
  intros payments Hc.
  destruct (monthly_series_sliced payments (calendar_dates_valid _ Hc))
    as (full & Hiff & Hsorted & Hseries & _).
  exists (JS.slice_last 6 full). split; [|split; [|split; [|split]]].
  - rewrite Hseries. apply map_ext. intros ym. apply month_bucket_total.
  - apply slice_last_length.
  - now apply slice_last_sorted.
  - intros ym Hin. apply slice_last_incl in Hin. apply Hiff in Hin.
    destruct Hin as (p & Hp & Hm). exists p. now rewrite <- in_month_paid.
  - intros ym p Hp Hm. apply (slice_last_recent chron_lt 6 full ym Hsorted).
    apply Hiff. exists p. now rewrite in_month_paid.
Qed.

Lemma eight_months_calendar : paid_dates_calendar eight_months.
Proof.
  intros p d Hin _ E. unfold eight_months in Hin. cbn [In] in Hin.
  repeat (destruct Hin as [<- | Hin];
          [ cbn in E; try discriminate; injection E as <-;
            unfold Date.valid; cbn [Date.month Date.day Date.year];
            repeat split; apply Nat.leb_le; reflexivity |]).
  destruct Hin.
Defined.

Lemma monthly_revenue_witness :
  paid_dates_calendar eight_months
  /\ (exists months : list (nat * nat),
        monthly (processChartData eight_months) = map (month_total eight_months) months
        /\ List.length months <= 6
        /\ StronglySorted chron_lt months
        /\ (forall ym, In ym months ->
              exists p, In p eight_months /\ paid_in_month ym p = true)
        /\ (forall ym p, In p eight_months -> paid_in_month ym p = true ->
              In ym months
              \/ (List.length months = 6 /\ Forall (chron_lt ym) months)))
  /\ monthly (processChartData eight_months)
     = [ mkMonthlyEntry "Jan 2024" 30 1; mkMonthlyEntry "Feb 2024" 40 1;
         mkMonthlyEntry "Mar 2024" 50 1; mkMonthlyEntry "Apr 2024" 60 1;
         mkMonthlyEntry "May 2024" 80.5 2; mkMonthlyEntry "Jun 2024" 70 1 ].
Proof.
  split; [exact eight_months_calendar|].
  split; [exact (proj1 monthly_revenue_spec eight_months eight_months_calendar)
         |exact (proj2 monthly_revenue_spec)].
Defined.

(** ** Saving a payment: what is sent *)

Lemma payment_fields_invariant parseFloat today form doc :
  paid_date_invariant (ClientDetail.payment_fields parseFloat today form doc).
Proof.
  unfold paid_date_invariant, ClientDetail.payment_fields.
  cbn [ClientDetail.paid_date ClientDetail.status].
  destruct (String.eqb_spec (ClientDetail.f_status form) "paid") as [E|E].
  - split; [auto|discriminate].
  - split; [congruence|contradiction].
Qed.

Lemma handleAddPayment_sent parseFloat today form id user editing file r :
  ClientDetail.handleAddPayment parseFloat today form id user editing file
  = ClientDetail.Sent r ->
  exists doc, ClientDetail.fields_of r = ClientDetail.payment_fields parseFloat today form doc.
Proof.
  unfold ClientDetail.handleAddPayment.
  destruct (JS.or_null (ClientDetail.f_amount form)); [|discriminate].
  destruct id as [id|]; [|discriminate].
  destruct user as [user|]; [|discriminate].
  destruct file as [[doc|]|]; try discriminate;
    destruct editing; intros [= <-]; eexists; reflexivity.
Qed.

(** ** Invoice lines and totals *)

Lemma handleItemChange_at items : forall index item change,
  nth_error items index = Some item ->
  Invoices.handleItemChange items index change
  = Some (firstn index items ++ changed_item item change :: skipn (S index) items).
Proof.
  induction items as [|x items IH]; intros [|index] item change Hnth;
    cbn [nth_error] in Hnth; try discriminate.
  - injection Hnth as ->. cbn. now destruct change.
  - cbn [Invoices.handleItemChange]. rewrite (IH _ _ _ Hnth). reflexivity.
Qed.

(** C2, as the code has it.  For every item list and tax-rate text, the total
    is the binary64 sum of subtotal and tax amount, the subtotal is the
    left-to-right sum of the item amounts, and the tax amount is the product
    of the subtotal and rate/100, kept as computed and not rounded to cents;
    without items the subtotal is 0. *)
Theorem invoice_totals_spec (parseFloat : string -> float) items form :
  Invoices.total (Invoices.calculateTotals parseFloat items form)
  = (Invoices.subtotal (Invoices.calculateTotals parseFloat items form)
     + Invoices.taxAmount (Invoices.calculateTotals parseFloat items form))%float
  /\ Invoices.subtotal (Invoices.calculateTotals parseFloat items form)
     = JS.sum (map Invoices.amount items)
  /\ Invoices.taxAmount (Invoices.calculateTotals parseFloat items form)
     = (JS.sum (map Invoices.amount items)
        * (parseFloat (Invoices.tax_rate form) / 100))%float
  /\ Invoices.subtotal (Invoices.calculateTotals parseFloat [] form) = 0%float.
Proof.
  unfold Invoices.calculateTotals.
  cbn [Invoices.total Invoices.subtotal Invoices.taxAmount].
  rewrite fold_left_add_map. repeat split.
Qed.

(** C2 as stated fails: with one item of 0.50 and a rate of 25 the tax
    amount is 0.125, strictly between the cent amounts 0.12 and 0.13. *)
Lemma invoice_tax_not_rounded :
  Invoices.taxAmount
    (Invoices.calculateTotals JS.parseFloat [half_unit] (Invoices.mkForm "INV-1" "25"))
  = 0.125%float
  /\ (0.12 <? 0.125)%float = true /\ (0.125 <? 0.13)%float = true
  /\ JS.parseFloat "25" = 25%float.
Proof. repeat split; vm_compute; reflexivity. Qed.

Example invoice_totals_scenario :
  Invoices.calculateTotals JS.parseFloat two_lines (Invoices.mkForm "INV-2" "10")
  = Invoices.mkTotals 25 2.5 27.5.
Proof. vm_compute. reflexivity. Qed.

(** C7, as the code has it.  Money is a binary64 number throughout: a line
    amount is the binary64 product of quantity and unit price, whatever
    number the price field holds; the subtotal is the binary64 sum of the
    line amounts and the tax amount a binary64 product; a payment is sent
    with the number its amount text reads as; nothing is rounded to cents
    and no number is turned away. *)
Theorem money_is_binary64 (parseFloat : string -> float) :
  (forall q p, Invoices.calculateItemAmount q p = (q * p)%float)
  /\ (forall items index item text,
        nth_error items index = Some item ->
        exists items',
          Invoices.onUnitPriceChange parseFloat items index text = Some items'
          /\ option_map Invoices.unit_price (nth_error items' index)
             = Some (JS.or_zero (parseFloat text))
          /\ option_map Invoices.amount (nth_error items' index)
             = Some (Invoices.quantity item * JS.or_zero (parseFloat text))%float)
  /\ (forall items form,
        Invoices.subtotal (Invoices.calculateTotals parseFloat items form)
        = fold_left add (map Invoices.amount items) 0%float
        /\ Invoices.taxAmount (Invoices.calculateTotals parseFloat items form)
           = (Invoices.subtotal (Invoices.calculateTotals parseFloat items form)
              * (parseFloat (Invoices.tax_rate form) / 100))%float)
  /\ (forall today form id user editing file r,
        ClientDetail.handleAddPayment parseFloat today form id user editing file
        = ClientDetail.Sent r ->
        ClientDetail.amount (ClientDetail.fields_of r)
        = parseFloat (ClientDetail.f_amount form)).
Proof.
  split; [reflexivity|split; [|split]]; cycle 2.
  - intros today form id user editing file r Hsent.
    destruct (handleAddPayment_sent _ _ _ _ _ _ _ _ Hsent) as (doc & ->).
    reflexivity.
  - intros items index item text Hnth. unfold Invoices.onUnitPriceChange.
    rewrite (handleItemChange_at _ _ _ _ Hnth). eexists; split; [reflexivity|].
    assert (Hlen : List.length (firstn index items) = index).
    { apply firstn_length_le. apply Nat.lt_le_incl.
      apply nth_error_Some. congruence. }
    rewrite nth_error_app2 by lia. rewrite Hlen, Nat.sub_diag. cbn. auto.
  - intros items form. unfold Invoices.calculateTotals.
    cbn [Invoices.subtotal Invoices.taxAmount].
    now rewrite fold_left_add_map.
Qed.

(** C7 as stated fails: three units at 0.10 cost 0.30000000000000004 and not
    0.30; half a unit at 0.25 costs 0.125, not a cent amount; amounts 0.10
    and 0.20 add up to 0.30000000000000004; a unit price of 19.999 is taken
    as it is, and so is a payment amount of 19.999. *)
Lemma money_not_cent_exact :
  Invoices.calculateItemAmount 3 0.1 = 0.30000000000000004%float
  /\ (0.3 <? Invoices.calculateItemAmount 3 0.1)%float = true
  /\ Invoices.calculateItemAmount 0.5 0.25 = 0.125%float
  /\ (0.3 <? Invoices.subtotal
               (Invoices.calculateTotals JS.parseFloat
                  [ Invoices.mkItem None "A" 1 0.1 0.1; Invoices.mkItem None "B" 1 0.2 0.2 ]
                  (Invoices.mkForm "INV-3" "0")))%float = true
  /\ Invoices.onUnitPriceChange JS.parseFloat [half_unit] 0 "19.999"
     = Some [ Invoices.mkItem None "A" 1 19.999 19.999 ]
  /\ ClientDetail.handleAddPayment JS.parseFloat (Date.mk 2024 3 10)
       (ClientDetail.mkForm "19.999" "pending" "" "" "")
       (Some "client-1") (Some "user-1") None None
     = ClientDetail.Sent
         (ClientDetail.Insert "client-1" "user-1"
            (ClientDetail.mkFields 19.999 "pending" None None None None)).
Proof. repeat split; vm_compute; reflexivity. Qed.

(** C8, as the code has it.  A line takes every quantity and every unit
    price: the change is stored and the amount becomes their product, also
    for a quantity of zero or less and for a negative price; text that does
    not read as a non-zero number is turned into 0. *)
Theorem line_item_input_unchecked (parseFloat : string -> float) items index item :
  nth_error items index = Some item ->
  (forall v,
     Invoices.handleItemChange items index (Invoices.Quantity v)
     = Some (firstn index items
             ++ Invoices.mkItem (Invoices.id item) (Invoices.description item)
                  v (Invoices.unit_price item) (v * Invoices.unit_price item)
                :: skipn (S index) items))
  /\ (forall v,
        Invoices.handleItemChange items index (Invoices.UnitPrice v)
        = Some (firstn index items
                ++ Invoices.mkItem (Invoices.id item) (Invoices.description item)
                     (Invoices.quantity item) v (Invoices.quantity item * v)
                   :: skipn (S index) items))
  /\ (forall text,
        JS.truthy (parseFloat text) = false ->
        Invoices.onQuantityChange parseFloat items index text
        = Invoices.handleItemChange items index (Invoices.Quantity 0)
        /\ Invoices.onUnitPriceChange parseFloat items index text
           = Invoices.handleItemChange items index (Invoices.UnitPrice 0))
  /\ (forall text,
        JS.truthy (parseFloat text) = true ->
        Invoices.onQuantityChange parseFloat items index text
        = Invoices.handleItemChange items index (Invoices.Quantity (parseFloat text))
        /\ Invoices.onUnitPriceChange parseFloat items index text
           = Invoices.handleItemChange items index (Invoices.UnitPrice (parseFloat text))).
Proof.
  intros Hnth. split; [|split; [|split]].
  - intros v. now rewrite (handleItemChange_at _ _ _ _ Hnth).
  - intros v. now rewrite (handleItemChange_at _ _ _ _ Hnth).
  - intros text Ht. unfold Invoices.onQuantityChange, Invoices.onUnitPriceChange, JS.or_zero.
    now rewrite Ht.
  - intros text Ht. unfold Invoices.onQuantityChange, Invoices.onUnitPriceChange, JS.or_zero.
    now rewrite Ht.
Qed.

Lemma line_item_input_unchecked_witness :
  nth_error two_lines 1 = Some (Invoices.mkItem None "B" 1 5 5)
  /\ Invoices.handleItemChange two_lines 1 (Invoices.Quantity (-2))
     = Some [ Invoices.mkItem None "A" 2 10 20; Invoices.mkItem None "B" (-2) 5 (-2 * 5) ].
Proof.
  split; [reflexivity|].
  exact (proj1 (line_item_input_unchecked JS.parseFloat two_lines 1
                  (Invoices.mkItem None "B" 1 5 5) eq_refl) (-2)%float).
Defined.

(** C8 as stated fails: a quantity of -2 and a price of -5 are stored and
    priced, and the text "abc" becomes the quantity 0; no error is raised. *)
Lemma invalid_line_items_accepted :
  Invoices.onQuantityChange JS.parseFloat [Invoices.mkItem None "A" 1 10 10] 0 "-2"
  = Some [ Invoices.mkItem None "A" (-2) 10 (-20) ]
  /\ Invoices.onUnitPriceChange JS.parseFloat [Invoices.mkItem None "A" 1 10 10] 0 "-5"
     = Some [ Invoices.mkItem None "A" 1 (-5) (-5) ]
  /\ Invoices.onQuantityChange JS.parseFloat [Invoices.mkItem None "A" 1 10 10] 0 "abc"
     = Some [ Invoices.mkItem None "A" 0 10 0 ]
  /\ Invoices.calculateItemAmount (-2) 10 = (-20)%float.
Proof. repeat split; vm_compute; reflexivity. Qed.

(** ** Saving a payment: status and paid date *)

(** C3.  Whenever saving a payment, new or edited, sends a request on the day
    [today], the columns written carry the status chosen in the form; their
    paid date is set exactly when that status is paid; it is then [today],
    whatever the due date; for any other status it is null.  A table whose
    rows all satisfy the invariant still does after the request is carried
    out. *)
Theorem paid_date_iff_paid parseFloat today form id user editing file r :
  ClientDetail.handleAddPayment parseFloat today form id user editing file
  = ClientDetail.Sent r ->
  ClientDetail.status (ClientDetail.fields_of r) = ClientDetail.f_status form
  /\ (ClientDetail.paid_date (ClientDetail.fields_of r) <> None
      <-> ClientDetail.status (ClientDetail.fields_of r) = "paid")
  /\ (ClientDetail.f_status form = "paid" ->
      ClientDetail.paid_date (ClientDetail.fields_of r) = Some today)
  /\ (ClientDetail.f_status form <> "paid" ->
      ClientDetail.paid_date (ClientDetail.fields_of r) = None)
  /\ (forall fresh_id table,
        Forall (fun row => paid_date_invariant (ClientDetail.row_fields row)) table ->
        Forall (fun row => paid_date_invariant (ClientDetail.row_fields row))
          (ClientDetail.apply_request fresh_id table r)).
Proof.
  intros Hsent. destruct (handleAddPayment_sent _ _ _ _ _ _ _ _ Hsent) as (doc & Hf).
  pose proof (payment_fields_invariant parseFloat today form doc) as Hinv.
  rewrite <- Hf in Hinv. split; [|split; [|split; [|split]]].
  - now rewrite Hf.
  - exact Hinv.
  - intros Hpaid. rewrite Hf. unfold ClientDetail.payment_fields.
    cbn [ClientDetail.paid_date]. now rewrite Hpaid.
  - intros Hnot. rewrite Hf. unfold ClientDetail.payment_fields.
    cbn [ClientDetail.paid_date]. apply String.eqb_neq in Hnot. now rewrite Hnot.
  - intros fresh_id table Hall. destruct r as [pid f | cid uid f];
      cbn [ClientDetail.apply_request ClientDetail.fields_of] in *.
    + rewrite Forall_forall in *. intros row Hrow. apply in_map_iff in Hrow.
      destruct Hrow as (row0 & <- & Hrow0).
      destruct (String.eqb (ClientDetail.row_id row0) pid); [exact Hinv|].
      now apply Hall.
    + apply Forall_app. split; [exact Hall|].
      apply Forall_cons; [exact Hinv|apply Forall_nil].
Qed.

Lemma paid_date_iff_paid_witness :
  ClientDetail.handleAddPayment JS.parseFloat (Date.mk 2024 3 10) paid_form
    (Some "client-1") (Some "user-1") (Some "pay-1") None
  = ClientDetail.Sent (ClientDetail.Update "pay-1" (paid_fields (Date.mk 2024 3 10)))
  /\ ClientDetail.paid_date (paid_fields (Date.mk 2024 3 10)) = Some (Date.mk 2024 3 10).
Proof.
  assert (H : ClientDetail.handleAddPayment JS.parseFloat (Date.mk 2024 3 10) paid_form
                (Some "client-1") (Some "user-1") (Some "pay-1") None
              = ClientDetail.Sent
                  (ClientDetail.Update "pay-1" (paid_fields (Date.mk 2024 3 10))))
    by (vm_compute; reflexivity).
  split; [exact H|].
  exact (proj1 (proj2 (proj2 (paid_date_iff_paid _ _ _ _ _ _ _ _ H))) eq_refl).
Defined.

(** A payment entered as pending, marked paid on 10 March 2024, then set back
    to pending on 12 March: the paid date is null, then 10 March, then null
    again. *)
Example pending_paid_pending :
  let save today form editing table :=
    match ClientDetail.handleAddPayment JS.parseFloat today form
            (Some "client-1") (Some "user-1") editing None with
    | ClientDetail.Sent r => ClientDetail.apply_request "pay-1" table r
    | _ => table
    end in
  let t1 := save (Date.mk 2024 3 1) pending_form None [] in
  let t2 := save (Date.mk 2024 3 10) paid_form (Some "pay-1") t1 in
  let t3 := save (Date.mk 2024 3 12) pending_form (Some "pay-1") t2 in
  map (fun row => ClientDetail.paid_date (ClientDetail.row_fields row)) t1 = [None]
  /\ map (fun row => ClientDetail.paid_date (ClientDetail.row_fields row)) t2
     = [Some (Date.mk 2024 3 10)]
  /\ map (fun row => ClientDetail.paid_date (ClientDetail.row_fields row)) t3 = [None].
Proof. vm_compute. repeat split. Qed.

(** ** Expenses *)

Lemma totalExpenses_sum expenses :
  Expenses.totalExpenses expenses = JS.sum (map Expenses.amount expenses).
Proof. unfold Expenses.totalExpenses. apply fold_left_add_map. Qed.

(** East of Greenwich, and at UTC, the monthly figure is the sum of the
    expenses dated in the current month of the current year. *)
Lemma monthlyExpenses_east clock expenses :
  (0 <= Expenses.utc_offset clock)%Z ->
  1 <= Date.month (Expenses.now clock) ->
  Forall (fun e => 1 <= Date.month (Expenses.date e)) expenses ->
  Expenses.monthlyExpenses clock expenses
  = JS.sum (map Expenses.amount (filter (in_current_month clock) expenses)).
Proof.
  intros Hoff Hnow Hall. unfold Expenses.monthlyExpenses.
  rewrite fold_left_add_map. unfold JS.sum. do 2 f_equal.
  apply filter_ext_in. intros e He. rewrite Forall_forall in Hall.
  specialize (Hall e He). unfold Expenses.getFullYear_getMonth, in_current_month.
  apply Z.ltb_ge in Hoff. rewrite Hoff. cbn [andb].
  rewrite andb_comm. f_equal.
  destruct (Nat.eqb_spec (Date.month (Expenses.date e)) (Date.month (Expenses.now clock)));
    destruct (Nat.eqb_spec (Date.month (Expenses.date e) - 1)
                           (Date.month (Expenses.now clock) - 1)); auto; lia.
Qed.

(** C10 at a browser five hours west of Greenwich, on 15 March 2024: the
    expense of 1 March is left out of the monthly figure and the expense of
    1 April is counted, so the figure is 7 where the expenses dated in March
    2024 sum to 40; the total of all expenses is their sum, 47. *)
Theorem expenses_this_month_west_of_utc :
  Expenses.monthlyExpenses (Expenses.mkClock (Date.mk 2024 3 15) (-300))
    [ Expenses.mkExpense 40 (Date.mk 2024 3 1); Expenses.mkExpense 7 (Date.mk 2024 4 1) ]
  = 7%float
  /\ JS.sum (map Expenses.amount
       (filter (in_current_month (Expenses.mkClock (Date.mk 2024 3 15) (-300)))
          [ Expenses.mkExpense 40 (Date.mk 2024 3 1);
            Expenses.mkExpense 7 (Date.mk 2024 4 1) ]))
     = 40%float
  /\ Expenses.totalExpenses
       [ Expenses.mkExpense 40 (Date.mk 2024 3 1); Expenses.mkExpense 7 (Date.mk 2024 4 1) ]
     = 47%float.
Proof. repeat split; vm_compute; reflexivity. Qed.

(** * Further properties of the pages *)

(** ** Dashboard: payments the loop passes over *)

Lemma forEach_unknown_status acc p :
  known_status p = false -> forEach_body acc p = acc.
Proof.
  unfold known_status. intros H.
  apply orb_false_iff in H. destruct H as [H H3].
  apply orb_false_iff in H. destruct H as [H1 H2].
  unfold forEach_body, paid_with_date, statusCount_step.
  rewrite H1, H2, H3. now destruct acc.
Qed.

Lemma fold_forEach_known payments : forall acc,
  fold_left forEach_body (filter known_status payments) acc
  = fold_left forEach_body payments acc.
Proof.
  induction payments as [|p ps IH]; intros acc; [reflexivity|].
  cbn [filter]. destruct (known_status p) eqn:E; cbn [fold_left].
  - apply IH.
  - rewrite (forEach_unknown_status acc p E). apply IH.
Qed.

Lemma filter_known_then (f : PaymentData -> bool) payments :
  (forall p, f p = true -> known_status p = true) ->
  filter f (filter known_status payments) = filter f payments.
Proof.
  intros Hf. induction payments as [|p ps IH]; [reflexivity|].
  cbn [filter]. destruct (known_status p) eqn:E; cbn [filter].
  - now rewrite IH.
  - destruct (f p) eqn:Ef; [|exact IH].
    apply Hf in Ef. congruence.
Qed.

(** X1.  A payment whose status is none of paid, pending and overdue is
    passed over everywhere: dropping such payments changes neither the three
    chart series nor the two stat-card totals. *)
Theorem unknown_status_ignored payments :
  processChartData (filter known_status payments) = processChartData payments
  /\ totalPaid (filter known_status payments) = totalPaid payments
  /\ totalPending (filter known_status payments) = totalPending payments.
Proof.
  split; [|split].
  - unfold processChartData. now rewrite fold_forEach_known.
  - unfold totalPaid. rewrite filter_known_then; [reflexivity|].
    intros p Hp. unfold known_status. now rewrite Hp.
  - unfold totalPending. rewrite filter_known_then; [reflexivity|].
    intros p Hp. unfold known_status.
    apply orb_true_iff in Hp. destruct Hp as [-> | ->];
      now rewrite ?orb_true_r.
Qed.

(** ** Dashboard: day labels *)

Lemma parse_day_label d :
  1 <= Date.month d <= 12 ->
  Date.parse_MMM_yyyy (Date.format_MMM_dd d) = Some (Date.day d, Date.month d).
Proof.
  destruct d as [y m dd]. cbn [Date.month Date.day]. intros Hm.
  destruct (uint_of_string_pad 2 dd) as (u & Hu & Hd).
  pose proof (pad_nonempty 2 dd) as Hne.
  unfold Date.format_MMM_dd. cbn [Date.month Date.day].
  month_cases m;
    cbn [Date.MMM Nat.sub nth Date.month_names String.append];
    unfold Date.parse_MMM_yyyy; rewrite Hu;
    destruct (Date.pad 2 dd); try congruence; cbn; now rewrite Hd.
Qed.

(** X2.  Two calendar dates get the same day label exactly when they agree
    on month and day: the timeline merges payments of the same day of
    different years into one bucket and never merges two different days. *)
Theorem day_label_eq_iff d1 d2 :
  Date.valid d1 -> Date.valid d2 ->
  (Date.format_MMM_dd d1 = Date.format_MMM_dd d2
   <-> Date.month d1 = Date.month d2 /\ Date.day d1 = Date.day d2).
Proof.
  intros [Hm1 _] [Hm2 _]. split.
  - intros E. apply (f_equal Date.parse_MMM_yyyy) in E.
    rewrite !parse_day_label in E by assumption. now injection E.
  - intros [Hm Hd]. unfold Date.format_MMM_dd. now rewrite Hm, Hd.
Qed.

Lemma day_label_eq_iff_witness :
  Date.valid march_10_2023 /\ Date.valid march_10_2024
  /\ (Date.format_MMM_dd march_10_2023 = Date.format_MMM_dd march_10_2024
      <-> Date.month march_10_2023 = Date.month march_10_2024
          /\ Date.day march_10_2023 = Date.day march_10_2024).
Proof.
  assert (H1 : Date.valid march_10_2023) by (unfold Date.valid; cbn; lia).
  assert (H2 : Date.valid march_10_2024) by (unfold Date.valid; cbn; lia).
  split; [exact H1|split; [exact H2|]].
  exact (day_label_eq_iff march_10_2023 march_10_2024 H1 H2).
Defined.

(** ** Dashboard: shape of the series *)

Lemma NoDup_slice_last {A : Type} n (l : list A) : NoDup l -> NoDup (JS.slice_last n l).
Proof.
  unfold JS.slice_last. intros H.
  rewrite <- (firstn_skipn (List.length l - n) l) in H.
  now apply NoDup_app_remove_l in H.
Qed.

Lemma NoDup_map_filter {A B : Type} (f : A -> B) (g : A -> bool) l :
  NoDup (map f l) -> NoDup (map f (filter g l)).
Proof.
  induction l as [|x l IH]; cbn [map filter]; intros H; [constructor|].
  inversion H as [|? ? Hnotin Hnd]; subst.
  destruct (g x); cbn [map]; [constructor|]; auto.
  intros Hin. apply Hnotin. apply in_map_iff in Hin.
  destruct Hin as (y & Hy & Hin). apply filter_In in Hin.
  apply in_map_iff. exists y. tauto.
Qed.

Lemma slice_last_nil {A : Type} n (l : list A) :
  0 < n -> (JS.slice_last n l = [] <-> l = []).
Proof.
  intros Hn. unfold JS.slice_last. rewrite <- skipn_all_iff. split.
  - intros H. destruct l; [reflexivity|]. cbn [List.length] in H. lia.
  - intros ->. cbn. lia.
Qed.

Lemma first_occurrences_nil ks : first_occurrences ks = [] <-> ks = [].
Proof. destruct ks; cbn; split; congruence. Qed.

Lemma month_keyed_nil payments :
  month_keyed payments = [] <-> forall p, In p payments -> paid_with_date p = None.
Proof.
  induction payments as [|p ps IH]; cbn [month_keyed flat_map In].
  - split; [intros _ p []|reflexivity].
  - fold (month_keyed ps). split.
    + intros H. apply app_eq_nil in H. destruct H as [Hp Hps].
      intros q [<-|Hq]; [|now apply IH].
      destruct (paid_with_date p); [discriminate|reflexivity].
    + intros H. rewrite (H p (or_introl eq_refl)). cbn [app].
      apply IH. intros q Hq. apply H. now right.
Qed.

Lemma day_keyed_nil payments :
  day_keyed payments = [] <-> forall p, In p payments -> paid_with_date p = None.
Proof.
  induction payments as [|p ps IH]; cbn [day_keyed flat_map In].
  - split; [intros _ p []|reflexivity].
  - fold (day_keyed ps). split.
    + intros H. apply app_eq_nil in H. destruct H as [Hp Hps].
      intros q [<-|Hq]; [|now apply IH].
      destruct (paid_with_date p); [discriminate|reflexivity].
    + intros H. rewrite (H p (or_introl eq_refl)). cbn [app].
      apply IH. intros q Hq. apply H. now right.
Qed.

Lemma monthly_entries_nil payments :
  monthly_entries payments = [] <-> month_keyed payments = [].
Proof.
  unfold monthly_entries.
  pose proof (accumulate_keys_empty monthly_update (month_keyed payments)) as Hk.
  split.
  - intros H. apply map_eq_nil in H. rewrite H in Hk. cbn in Hk.
    symmetry in Hk. apply (proj1 (first_occurrences_nil _)) in Hk.
    now apply map_eq_nil in Hk.
  - now intros ->.
Qed.

Lemma timeline_labels payments :
  map te_date (timeline (processChartData payments))
  = JS.slice_last 30 (day_labels payments).
Proof.
  rewrite processChartData_timeline, timeline_entries.
  rewrite <- slice_last_map, map_map. cbn [day_bucket te_date]. now rewrite map_id.
Qed.

(** X3.  No label occurs twice in a chart series: the months of the monthly
    revenue, the days of the timeline and the names of the status
    distribution are each pairwise distinct. *)
Theorem chart_labels_distinct payments :
  NoDup (map me_month (monthly (processChartData payments)))
  /\ NoDup (map te_date (timeline (processChartData payments)))
  /\ NoDup (map se_name (statusDistribution (processChartData payments))).
Proof.
  split; [|split].
  - rewrite processChartData_monthly, <- slice_last_map. apply NoDup_slice_last.
    eapply Permutation_NoDup;
      [apply Permutation_map; symmetry; apply sort_perm|].
    apply monthly_entries_NoDup.
  - rewrite timeline_labels. apply NoDup_slice_last. apply first_occurrences_NoDup.
  - unfold processChartData. cbn [statusDistribution].
    apply NoDup_map_filter. cbn [map se_name].
    repeat constructor; cbn [In]; intros H; repeat destruct H as [H|H];
      try discriminate; try contradiction.
Qed.

(** X4.  The monthly revenue is empty exactly when no payment has status
    paid together with a paid date, and so is the daily timeline; one such
    payment is enough for both to have an entry. *)
Theorem series_empty_iff payments :
  (monthly (processChartData payments) = []
   <-> forall p, In p payments -> paid_with_date p = None)
  /\ (timeline (processChartData payments) = []
      <-> forall p, In p payments -> paid_with_date p = None).
Proof.
  split.
  - rewrite processChartData_monthly, slice_last_nil by lia.
    rewrite <- month_keyed_nil, <- monthly_entries_nil. split.
    + intros H. apply Permutation_nil. rewrite <- H. apply sort_perm.
    + now intros ->.
  - rewrite <- day_keyed_nil.
    pose proof (timeline_labels payments) as Hl. split.
    + intros H. rewrite H in Hl. cbn [map] in Hl. symmetry in Hl.
      apply slice_last_nil in Hl; [|lia].
      apply (proj1 (first_occurrences_nil _)) in Hl. now apply map_eq_nil in Hl.
    + intros H. unfold day_labels in Hl. rewrite H in Hl. cbn in Hl.
      now apply map_eq_nil in Hl.
Qed.

(** ** Dashboard: payment counts of the monthly series *)

Lemma amounts_at_absent k (kas : list (string * float)) :
  ~ In k (map fst kas) -> amounts_at k kas = [].
Proof.
  unfold amounts_at. induction kas as [|[k0 a0] kas IH]; [reflexivity|].
  cbn [map fst In filter]. intros Hnot.
  destruct (String.eqb_spec k0 k) as [->|_]; [exfalso; auto|].
  apply IH. tauto.
Qed.

Lemma list_sum_cons x l : list_sum (x :: l) = x + list_sum l.
Proof. reflexivity. Qed.

Lemma list_sum_split (g : string -> nat) k0 (F : list string) :
  NoDup F ->
  list_sum (map g F)
  = (if existsb (String.eqb k0) F then g k0 else 0)
    + list_sum (map g (filter (fun k => negb (String.eqb k0 k)) F)).
Proof.
  induction 1 as [|x F Hnotin Hnd IH]; [reflexivity|].
  cbn [map existsb filter]. rewrite list_sum_cons, IH.
  destruct (String.eqb_spec k0 x) as [<-|Hne]; cbn [orb negb map].
  - destruct (existsb (String.eqb k0) F) eqn:E; [|lia].
    apply existsb_exists in E. destruct E as (y & Hy & Ey).
    apply String.eqb_eq in Ey. subst y. contradiction.
  - rewrite list_sum_cons. lia.
Qed.

Lemma counts_by_key (kas : list (string * float)) :
  list_sum (map (fun k => List.length (amounts_at k kas))
              (first_occurrences (map fst kas)))
  = List.length kas.
Proof.
  induction kas as [|[k0 a0] kas IH]; [reflexivity|].
  cbn [map fst first_occurrences List.length]. rewrite list_sum_cons.
  rewrite <- IH.
  rewrite (list_sum_split (fun k => List.length (amounts_at k kas)) k0
             (first_occurrences (map fst kas)))
    by apply first_occurrences_NoDup.
  assert (Hhead : List.length (amounts_at k0 ((k0, a0) :: kas))
                  = S (if existsb (String.eqb k0) (first_occurrences (map fst kas))
                       then List.length (amounts_at k0 kas) else 0)).
  { unfold amounts_at at 1. cbn [filter fst]. rewrite String.eqb_refl.
    cbn [map List.length]. fold (amounts_at k0 kas). f_equal.
    destruct (existsb _ _) eqn:E; [reflexivity|].
    rewrite amounts_at_absent; [reflexivity|].
    rewrite <- first_occurrences_In. intros Hin.
    assert (Ht : existsb (String.eqb k0) (first_occurrences (map fst kas)) = true)
      by (apply existsb_exists; exists k0; split; [exact Hin|apply String.eqb_refl]).
    congruence. }
  rewrite Hhead. cbn [Nat.add]. do 3 f_equal.
  apply map_ext_in. intros k Hk. apply filter_In in Hk. destruct Hk as [_ Hk].
  unfold amounts_at. cbn [filter fst].
  destruct (String.eqb k0 k); [discriminate|reflexivity].
Qed.

Lemma monthly_entries_by_key payments :
  monthly_entries payments
  = map (fun k => mkMonthlyEntry k
                    (JS.sum (amounts_at k (month_keyed payments)))
                    (List.length (amounts_at k (month_keyed payments))))
      (first_occurrences (map fst (month_keyed payments))).
Proof.
  unfold monthly_entries.
  set (kas := month_keyed payments).
  set (M := fold_left (accumulate monthly_update) kas []).
  assert (Hkeys : map fst M = first_occurrences (map fst kas))
    by apply accumulate_keys_empty.
  rewrite (Map_entries_by_get M
             (fun k => mkMonthlyData (JS.sum (amounts_at k kas))
                         (List.length (amounts_at k kas)))).
  - rewrite Hkeys, map_map. reflexivity.
  - rewrite Hkeys. apply first_occurrences_NoDup.
  - intros k Hk. rewrite Hkeys, first_occurrences_In in Hk.
    unfold M. rewrite accumulate_get. cbn [JS.Map_get].
    apply monthly_fold. now apply amounts_at_nonempty.
Qed.

Lemma month_keyed_length payments :
  List.length (month_keyed payments) = List.length (filter has_paid_date payments).
Proof.
  induction payments as [|p ps IH]; [reflexivity|].
  cbn [month_keyed flat_map filter]. fold (month_keyed ps).
  rewrite length_app, IH. unfold has_paid_date.
  now destruct (paid_with_date p).
Qed.

Lemma monthly_entries_counts payments :
  list_sum (map me_payments (monthly_entries payments))
  = List.length (filter has_paid_date payments).
Proof.
  rewrite monthly_entries_by_key, map_map. cbn [me_payments].
  rewrite counts_by_key. apply month_keyed_length.
Qed.

(** X5.  The payment counts of the monthly revenue never add up to more
    than the number of payments with status paid and a paid date, and when
    the series shows fewer than six months they add up to exactly that
    number: every such payment is counted once, in one month. *)
Theorem monthly_counts payments :
  list_sum (map me_payments (monthly (processChartData payments)))
  <= List.length (filter has_paid_date payments)
  /\ (List.length (monthly (processChartData payments)) < 6 ->
      list_sum (map me_payments (monthly (processChartData payments)))
      = List.length (filter has_paid_date payments)).
Proof.
  rewrite processChartData_monthly.
  set (sorted := JS.sort compare_months (monthly_entries payments)).
  assert (Hsum : list_sum (map me_payments sorted)
                 = List.length (filter has_paid_date payments)).
  { rewrite <- monthly_entries_counts. apply Permutation_list_sum.
    apply Permutation_map. apply sort_perm. }
  unfold JS.slice_last. split.
  - assert (Hsplit : list_sum (map me_payments sorted)
                     = list_sum (map me_payments (firstn (List.length sorted - 6) sorted))
                       + list_sum (map me_payments (skipn (List.length sorted - 6) sorted)))
      by (rewrite <- list_sum_app, <- map_app, firstn_skipn; reflexivity).
    lia.
  - rewrite length_skipn. intros Hlt.
    replace (List.length sorted - 6) with 0 by lia. exact Hsum.
Qed.

Lemma monthly_counts_witness :
  List.length (monthly (processChartData ledger_example)) < 6
  /\ list_sum (map me_payments (monthly (processChartData ledger_example)))
     = List.length (filter has_paid_date ledger_example).
Proof.
  assert (H : List.length (monthly (processChartData ledger_example)) < 6)
    by (vm_compute; lia).
  split; [exact H | exact (proj2 (monthly_counts ledger_example) H)].
Defined.

(** ** Dashboard: a day's total restarts after NaN or zero *)

(** X6.  When the next payment with status paid and a paid date falls on a
    day whose stored total is NaN or zero, or on a day not yet in the map,
    the day's total becomes 0 + amount: what was stored before, a NaN in
    particular, is dropped. *)
Theorem timeline_restart payments p d :
  paid_with_date p = Some d ->
  match JS.Map_get (timelineMap (chart_acc payments)) (Date.format_MMM_dd d) with
  | Some v => JS.truthy v = false
  | None => True
  end ->
  JS.Map_get (timelineMap (chart_acc (payments ++ [p]))) (Date.format_MMM_dd d)
  = Some (0 + amount p)%float.
Proof.
  intros Hd Hv. unfold chart_acc in *. rewrite fold_left_app. cbn [fold_left].
  unfold forEach_body at 1. rewrite Hd. cbn [timelineMap].
  rewrite Map_get_set_same. f_equal. unfold timeline_update.
  destruct (JS.Map_get _ _) as [v|]; [|reflexivity].
  unfold JS.or_zero. now rewrite Hv.
Qed.

Lemma timeline_restart_witness :
  paid_with_date (mkPayment 5 "paid" (Some march_10_2023)) = Some march_10_2023
  /\ JS.Map_get (timelineMap (chart_acc nan_then_five))
       (Date.format_MMM_dd march_10_2023) = Some nan
  /\ JS.Map_get
       (timelineMap (chart_acc (nan_then_five ++ [mkPayment 5 "paid" (Some march_10_2023)])))
       (Date.format_MMM_dd march_10_2023)
     = Some (0 + 5)%float.
Proof.
  split; [reflexivity|]. split; [vm_compute; reflexivity|].
  apply (timeline_restart nan_then_five (mkPayment 5 "paid" (Some march_10_2023))
           march_10_2023 eq_refl).
  vm_compute. reflexivity.
Defined.

(** ** Invoice form: the list of lines *)

Lemma filter_index_remove {A : Type} (items : list A) : forall k index,
  InvoicePage.filter_index (fun i => negb (i =? index)%nat) k items
  = if (index <? k)%nat then items
    else firstn (index - k) items ++ skipn (S (index - k)) items.
Proof.
  induction items as [|x items IH]; intros k index.
  - cbn [InvoicePage.filter_index skipn]. destruct (index <? k)%nat; [reflexivity|].
    now rewrite firstn_nil.
  - cbn [InvoicePage.filter_index]. rewrite IH.
    destruct (Nat.ltb_spec index k) as [Hlt|Hge].
    + destruct (Nat.eqb_spec k index); [lia|]. cbn [negb].
      destruct (Nat.ltb_spec index (S k)); [reflexivity|lia].
    + destruct (Nat.eqb_spec k index) as [->|Hne]; cbn [negb].
      * destruct (Nat.ltb_spec index (S index)); [|lia].
        now rewrite Nat.sub_diag.
      * destruct (Nat.ltb_spec index (S k)); [lia|].
        replace (index - k) with (S (index - S k)) by lia. reflexivity.
Qed.

Lemma removeItem_cut (items : list Invoices.InvoiceItem) index :
  1 < List.length items ->
  InvoicePage.removeItem items index = firstn index items ++ skipn (S index) items.
Proof.
  intros H. unfold InvoicePage.removeItem.
  destruct (Nat.ltb_spec 1 (List.length items)); [|lia].
  rewrite filter_index_remove. cbn [Nat.ltb Nat.leb]. now rewrite Nat.sub_0_r.
Qed.

Lemma removeItem_nonempty (items : list Invoices.InvoiceItem) index :
  items <> [] -> InvoicePage.removeItem items index <> [].
Proof.
  intros Hne. destruct (Nat.ltb_spec 1 (List.length items)) as [H|H].
  - rewrite (removeItem_cut _ _ H). intros E. apply (f_equal (@List.length _)) in E.
    rewrite length_app, length_firstn, length_skipn in E. cbn in E. lia.
  - unfold InvoicePage.removeItem.
    destruct (Nat.ltb_spec 1 (List.length items)); [lia|exact Hne].
Qed.

(** X7.  Removing a line never empties the list: with a single line, or with
    an index past the end, nothing changes; otherwise exactly the line at the
    index goes and the others keep their order. *)
Theorem removeItem_spec items index :
  (List.length items <= 1 -> InvoicePage.removeItem items index = items)
  /\ (List.length items <= index -> InvoicePage.removeItem items index = items)
  /\ (1 < List.length items -> index < List.length items ->
      InvoicePage.removeItem items index = firstn index items ++ skipn (S index) items
      /\ List.length (InvoicePage.removeItem items index) = List.length items - 1)
  /\ (items <> [] -> InvoicePage.removeItem items index <> []).
Proof.
  assert (Hcut : 1 < List.length items ->
                 InvoicePage.removeItem items index
                 = firstn index items ++ skipn (S index) items).
  { intros H. unfold InvoicePage.removeItem.
    destruct (Nat.ltb_spec 1 (List.length items)); [|lia].
    rewrite filter_index_remove. cbn [Nat.ltb Nat.leb]. now rewrite Nat.sub_0_r. }
  split; [|split; [|split]].
  - intros H. unfold InvoicePage.removeItem.
    destruct (Nat.ltb_spec 1 (List.length items)); [lia|reflexivity].
  - intros H. unfold InvoicePage.removeItem.
    destruct (Nat.ltb_spec 1 (List.length items)) as [H1|H1]; [|reflexivity].
    fold (InvoicePage.removeItem items index).
    pose proof (Hcut H1) as E. unfold InvoicePage.removeItem in E.
    destruct (Nat.ltb_spec 1 (List.length items)); [|lia].
    rewrite E, firstn_all2, skipn_all2 by lia. apply app_nil_r.
  - intros H1 H2. rewrite (Hcut H1). split; [reflexivity|].
    rewrite length_app, length_firstn, length_skipn. lia.
  - intros Hne. destruct (Nat.ltb_spec 1 (List.length items)) as [H|H].
    + rewrite (Hcut H). intros E. apply (f_equal (@List.length _)) in E.
      rewrite length_app, length_firstn, length_skipn in E. cbn in E. lia.
    + unfold InvoicePage.removeItem.
      destruct (Nat.ltb_spec 1 (List.length items)); [lia|exact Hne].
Qed.

Lemma removeItem_incl items index x :
  In x (InvoicePage.removeItem items index) -> In x items.
Proof.
  unfold InvoicePage.removeItem. destruct (1 <? List.length items)%nat; [|auto].
  generalize 0. induction items as [|y items IH]; intros k; cbn; [auto|].
  destruct (negb _); cbn; intros H; [destruct H|]; eauto.
Qed.

Lemma handleItemChange_some items : forall index change items',
  Invoices.handleItemChange items index change = Some items' ->
  exists item, nth_error items index = Some item.
Proof.
  induction items as [|x items IH]; intros [|index] change items' H;
    cbn in H; try discriminate.
  - now exists x.
  - destruct (Invoices.handleItemChange items index change) eqn:E; [|discriminate].
    cbn. eapply IH. exact E.
Qed.

Lemma or_zero_number x : is_nan (JS.or_zero x) = false.
Proof.
  unfold JS.or_zero, JS.truthy. destruct (is_nan x) eqn:E; cbn [orb negb].
  - reflexivity.
  - destruct (is_zero x); cbn [negb]; [reflexivity|exact E].
Qed.

Lemma Forall_cut {A : Type} (P : A -> Prop) n (l : list A) :
  Forall P l -> Forall P (firstn n l) /\ Forall P (skipn n l).
Proof.
  intros H. rewrite <- (firstn_skipn n l) in H. now apply Forall_app in H.
Qed.

Lemma changed_items_invariant (P : Invoices.InvoiceItem -> Prop) items index item change items' :
  Forall P items ->
  nth_error items index = Some item ->
  Invoices.handleItemChange items index change = Some items' ->
  P (changed_item item change) ->
  Forall P items' /\ items' <> [].
Proof.
  intros Hall Hnth Hchange Hnew.
  rewrite (handleItemChange_at _ _ _ _ Hnth) in Hchange. injection Hchange as <-.
  split.
  - apply Forall_app. split; [now apply Forall_cut|].
    constructor; [exact Hnew|].
    change (Forall P (skipn (S index) items)). now apply Forall_cut.
  - intros E. apply app_eq_nil in E. destruct E as [_ E]. discriminate.
Qed.

Lemma blank_item_ok :
  line_consistent InvoicePage.blank_item /\ line_numbers InvoicePage.blank_item.
Proof. repeat split; vm_compute; reflexivity. Qed.

Lemma reset_invariant today page : page_invariant (InvoicePage.resetForm today page).
Proof.
  destruct blank_item_ok as [Hc Hn].
  unfold page_invariant, InvoicePage.resetForm.
  cbn [InvoicePage.items InvoicePage.editingInvoice].
  repeat split; try discriminate; repeat constructor; assumption.
Qed.

Lemma step_invariant parseFloat today page e page' :
  page_invariant page ->
  InvoicePage.step parseFloat today page e = Some page' ->
  page_invariant page'.
Proof.
  intros (Hne & Hc & Hn & Hed) Hstep.
  destruct e; cbn [InvoicePage.step] in Hstep;
    try (injection Hstep as <-; unfold page_invariant; cbn; auto; fail).
  - (* description *)
    destruct (Invoices.handleItemChange _ _ _) as [items'|] eqn:E; [|discriminate].
    injection Hstep as <-.
    destruct (handleItemChange_some _ _ _ _ E) as (item & Hnth).
    pose proof (nth_error_In _ _ Hnth) as Hin.
    rewrite Forall_forall in Hc, Hn.
    destruct (changed_items_invariant line_consistent _ _ _ _ _
                (proj2 (Forall_forall _ _) Hc) Hnth E (Hc item Hin)) as [Hc' Hne'].
    destruct (changed_items_invariant line_numbers _ _ _ _ _
                (proj2 (Forall_forall _ _) Hn) Hnth E (Hn item Hin)) as [Hn' _].
    unfold page_invariant. cbn. auto.
  - (* quantity *)
    unfold Invoices.onQuantityChange in Hstep.
    destruct (Invoices.handleItemChange _ _ _) as [items'|] eqn:E; [|discriminate].
    injection Hstep as <-.
    destruct (handleItemChange_some _ _ _ _ E) as (item & Hnth).
    pose proof (nth_error_In _ _ Hnth) as Hin.
    rewrite Forall_forall in Hn.
    destruct (changed_items_invariant line_consistent _ _ _ _ _ Hc Hnth E
                eq_refl) as [Hc' Hne'].
    destruct (changed_items_invariant line_numbers _ _ _ _ _
                (proj2 (Forall_forall _ _) Hn) Hnth E
                (conj (or_zero_number _) (proj2 (Hn item Hin)))) as [Hn' _].
    unfold page_invariant. cbn. auto.
  - (* unit price *)
    unfold Invoices.onUnitPriceChange in Hstep.
    destruct (Invoices.handleItemChange _ _ _) as [items'|] eqn:E; [|discriminate].
    injection Hstep as <-.
    destruct (handleItemChange_some _ _ _ _ E) as (item & Hnth).
    pose proof (nth_error_In _ _ Hnth) as Hin.
    rewrite Forall_forall in Hn.
    destruct (changed_items_invariant line_consistent _ _ _ _ _ Hc Hnth E
                eq_refl) as [Hc' Hne'].
    destruct (changed_items_invariant line_numbers _ _ _ _ _
                (proj2 (Forall_forall _ _) Hn) Hnth E
                (conj (proj1 (Hn item Hin)) (or_zero_number _))) as [Hn' _].
    unfold page_invariant. cbn. auto.
  - (* add *)
    injection Hstep as <-. destruct blank_item_ok as [Hbc Hbn].
    unfold page_invariant, InvoicePage.addItem. cbn.
    repeat split; auto.
    + intros E. apply app_eq_nil in E. destruct E as [_ E]. discriminate.
    + apply Forall_app. split; [exact Hc|]. now repeat constructor.
    + apply Forall_app. split; [exact Hn|]. now repeat constructor.
  - (* remove *)
    injection Hstep as <-. unfold page_invariant. cbn.
    repeat split; auto.
    + now apply removeItem_nonempty.
    + rewrite Forall_forall in *. intros x Hx. apply Hc.
      eapply removeItem_incl; eauto.
    + rewrite Forall_forall in *. intros x Hx. apply Hn.
      eapply removeItem_incl; eauto.
  - (* dialog opened or closed *)
    injection Hstep as <-. destruct open.
    + unfold page_invariant. cbn. auto.
    + apply reset_invariant.
  - (* saved *)
    injection Hstep as <-. apply reset_invariant.
Qed.

Lemma reachable_invariant parseFloat page :
  InvoicePage.reachable parseFloat page -> page_invariant page.
Proof.
  induction 1 as [today | today page e page' _ IH Hstep].
  - apply (reset_invariant today (InvoicePage.initial today)).
  - exact (step_invariant _ _ _ _ _ IH Hstep).
Qed.

Lemma run_events_reachable parseFloat today events : forall page page',
  InvoicePage.reachable parseFloat page ->
  run_events parseFloat today page events = Some page' ->
  InvoicePage.reachable parseFloat page'.
Proof.
  induction events as [|e events IH]; intros page page' Hr Hrun; cbn in Hrun.
  - now injection Hrun as <-.
  - destruct (InvoicePage.step parseFloat today page e) as [page1|] eqn:E;
      [|discriminate].
    apply (IH page1); [|exact Hrun]. eapply InvoicePage.reach_step; eauto.
Qed.

Lemma typed_page_reachable : InvoicePage.reachable JS.parseFloat typed_page.
Proof.
  apply (run_events_reachable JS.parseFloat "2024-03-10" typing
           (InvoicePage.initial "2024-03-10")).
  - constructor.
  - vm_compute. reflexivity.
Defined.

(** X8.  In every state the invoice dialog can reach, the list of lines is
    not empty, each line's amount is the binary64 product of its quantity and
    unit price (never a stale value), no quantity or unit price is NaN, and
    no invoice is under edit. *)
Theorem page_invariant_reachable parseFloat page :
  InvoicePage.reachable parseFloat page ->
  InvoicePage.items page <> []
  /\ Forall line_consistent (InvoicePage.items page)
  /\ Forall line_numbers (InvoicePage.items page)
  /\ InvoicePage.editingInvoice page = None.
Proof. apply reachable_invariant. Qed.

Lemma page_invariant_reachable_witness :
  InvoicePage.reachable JS.parseFloat typed_page
  /\ InvoicePage.items typed_page <> []
  /\ Forall line_consistent (InvoicePage.items typed_page)
  /\ Forall line_numbers (InvoicePage.items typed_page)
  /\ InvoicePage.editingInvoice typed_page = None.
Proof.
  split; [exact typed_page_reachable|].
  exact (page_invariant_reachable JS.parseFloat typed_page typed_page_reachable).
Defined.

(** ** Saving an invoice *)

Lemma items_of_new id (items : list Invoices.InvoiceItem) :
  items_of id (map (InvoicePage.item_row id) items) = map (InvoicePage.item_row id) items
  /\ items_of_others id (map (InvoicePage.item_row id) items) = [].
Proof.
  unfold items_of, items_of_others.
  induction items as [|x items [IH1 IH2]]; [split; reflexivity|].
  cbn [map filter InvoicePage.item_row InvoicePage.item_invoice_id].
  rewrite String.eqb_refl. cbn [negb].
  split; [f_equal; exact IH1|exact IH2].
Qed.

Lemma items_of_absent id (rows : list InvoicePage.ItemRow) :
  (forall r, In r rows -> InvoicePage.item_invoice_id r <> id) ->
  items_of id rows = [] /\ items_of_others id rows = rows.
Proof.
  unfold items_of, items_of_others.
  induction rows as [|r rows IH]; intros H; [split; reflexivity|].
  cbn [filter]. pose proof (H r (or_introl eq_refl)) as Hr.
  apply String.eqb_neq in Hr. rewrite Hr. cbn [negb].
  destruct IH as [IH1 IH2]; [intros; apply H; now right|].
  split; [exact IH1|f_equal; exact IH2].
Qed.

Lemma items_of_kept id (rows : list InvoicePage.ItemRow) :
  items_of id (items_of_others id rows) = []
  /\ items_of_others id (items_of_others id rows) = items_of_others id rows.
Proof.
  unfold items_of, items_of_others.
  induction rows as [|r rows [IH1 IH2]]; [split; reflexivity|].
  cbn [filter]. destruct (String.eqb (InvoicePage.item_invoice_id r) id) eqn:E;
    cbn [negb filter]; [split; assumption|].
  rewrite E. cbn [negb]. split; [exact IH1|f_equal; exact IH2].
Qed.

Lemma item_rows_amounts id (items : list Invoices.InvoiceItem) :
  map InvoicePage.item_amount (map (InvoicePage.item_row id) items)
  = map Invoices.amount items.
Proof. rewrite map_map. reflexivity. Qed.

(** X9.  Saving shows the success toast exactly when a client and an invoice
    number are given, a user is signed in, and neither the invoice write nor
    the insert of the lines fails; the lines themselves are not looked at,
    and an error of the delete of old lines is not noticed.  Without client
    or number, or signed out, the tables are not touched. *)
Theorem submit_outcome parseFloat page user faults new_id db :
  (fst (InvoicePage.handleSubmit parseFloat page user faults new_id db)
   = InvoicePage.Success
   <-> InvoicePage.client_id (InvoicePage.invoiceForm page) <> ""
       /\ InvoicePage.invoice_number (InvoicePage.invoiceForm page) <> ""
       /\ user <> None
       /\ InvoicePage.invoice_write_fails faults = false
       /\ InvoicePage.items_insert_fails faults = false)
  /\ (InvoicePage.client_id (InvoicePage.invoiceForm page) = ""
      \/ InvoicePage.invoice_number (InvoicePage.invoiceForm page) = ""
      \/ user = None ->
      snd (InvoicePage.handleSubmit parseFloat page user faults new_id db) = db).
Proof.
  unfold InvoicePage.handleSubmit.
  destruct (String.eqb_spec (InvoicePage.client_id (InvoicePage.invoiceForm page)) "")
    as [Ec|Ec]; cbn [orb].
  { split; [split; [discriminate|intros (H & _); contradiction]|reflexivity]. }
  destruct (String.eqb_spec (InvoicePage.invoice_number (InvoicePage.invoiceForm page)) "")
    as [En|En].
  { split; [split; [discriminate|intros (_ & H & _); contradiction]|reflexivity]. }
  destruct user as [user|].
  2:{ split; [split; [discriminate|intros (_ & _ & H & _); contradiction]|reflexivity]. }
  split.
  - destruct (InvoicePage.editingInvoice page);
      destruct (InvoicePage.invoice_write_fails faults);
      destruct (InvoicePage.items_insert_fails faults); cbn [fst];
      split; try discriminate; try (intros (_ & _ & _ & H1 & H2); discriminate);
      intros _; repeat split; auto; discriminate.
  - intros [H|[H|H]]; [contradiction|contradiction|discriminate].
Qed.

(** X10.  A successful save of a new invoice adds one invoice row under the
    new key and one item row per line, in order; when that key was not in
    use, the stored subtotal is the sum of the stored amounts of the
    invoice's item rows, the stored total is subtotal plus tax amount, and
    the rows of all other invoices are as before. *)
Theorem submit_create_consistent parseFloat page user faults new_id db db' :
  InvoicePage.editingInvoice page = None ->
  (forall r, In r (InvoicePage.invoice_items db) ->
             InvoicePage.item_invoice_id r <> new_id) ->
  InvoicePage.handleSubmit parseFloat page user faults new_id db
  = (InvoicePage.Success, db') ->
  exists row,
    InvoicePage.invoices db' = InvoicePage.invoices db ++ [row]
    /\ InvoicePage.inv_id row = new_id
    /\ items_of new_id (InvoicePage.invoice_items db')
       = map (InvoicePage.item_row new_id) (InvoicePage.items page)
    /\ InvoicePage.inv_subtotal row
       = JS.sum (map InvoicePage.item_amount
                   (items_of new_id (InvoicePage.invoice_items db')))
    /\ InvoicePage.inv_total row
       = (InvoicePage.inv_subtotal row + InvoicePage.inv_tax_amount row)%float
    /\ items_of_others new_id (InvoicePage.invoice_items db')
       = InvoicePage.invoice_items db.
Proof.
  intros Hed Hfresh. unfold InvoicePage.handleSubmit. rewrite Hed.
  destruct (_ || _); [discriminate|].
  destruct user as [user|]; [|discriminate].
  destruct (InvoicePage.invoice_write_fails faults); [discriminate|].
  destruct (InvoicePage.items_insert_fails faults); [discriminate|].
  intros [= <-]. eexists. cbn [InvoicePage.invoices InvoicePage.invoice_items].
  destruct (items_of_new new_id (InvoicePage.items page)) as [Hn1 Hn2].
  destruct (items_of_absent new_id _ Hfresh) as [Ha1 Ha2].
  assert (Hitems : items_of new_id
                     (InvoicePage.invoice_items db
                      ++ map (InvoicePage.item_row new_id) (InvoicePage.items page))
                   = map (InvoicePage.item_row new_id) (InvoicePage.items page)).
  { unfold items_of in *. now rewrite filter_app, Ha1, Hn1. }
  split; [reflexivity|]. split; [reflexivity|]. split; [exact Hitems|].
  split; [|split].
  - rewrite Hitems, item_rows_amounts.
    unfold InvoicePage.invoice_row, Invoices.calculateTotals.
    cbn [InvoicePage.inv_subtotal Invoices.subtotal]. apply fold_left_add_map.
  - reflexivity.
  - unfold items_of_others in *. rewrite filter_app, Ha2, Hn2. apply app_nil_r.
Qed.

Lemma submit_create_consistent_witness :
  InvoicePage.editingInvoice typed_page = None
  /\ (forall r, In r (InvoicePage.invoice_items one_invoice_db) ->
                InvoicePage.item_invoice_id r <> "inv-3")
  /\ exists row,
       InvoicePage.invoices
         (snd (InvoicePage.handleSubmit JS.parseFloat typed_page (Some "user-1")
                 no_faults "inv-3" one_invoice_db))
       = InvoicePage.invoices one_invoice_db ++ [row]
       /\ InvoicePage.inv_id row = "inv-3".
Proof.
  assert (Hfresh : forall r, In r (InvoicePage.invoice_items one_invoice_db) ->
                             InvoicePage.item_invoice_id r <> "inv-3").
  { intros r Hr. cbn in Hr. destruct Hr as [<-|[<-|[]]]; cbn; discriminate. }
  split; [reflexivity|]. split; [exact Hfresh|].
  destruct (submit_create_consistent JS.parseFloat typed_page (Some "user-1") no_faults
              "inv-3" one_invoice_db _ eq_refl Hfresh eq_refl)
    as (row & Hrows & Hid & _).
  exists row. split; [exact Hrows|exact Hid].
Defined.

(** X11.  When the insert of the lines fails after the invoice row was
    written, the error toast is shown and nothing is rolled back: the new
    invoice row stays in the table, with its totals, and has no item row. *)
Theorem submit_create_partial parseFloat page user faults new_id db :
  InvoicePage.editingInvoice page = None ->
  InvoicePage.client_id (InvoicePage.invoiceForm page) <> "" ->
  InvoicePage.invoice_number (InvoicePage.invoiceForm page) <> "" ->
  InvoicePage.invoice_write_fails faults = false ->
  InvoicePage.items_insert_fails faults = true ->
  (forall r, In r (InvoicePage.invoice_items db) ->
             InvoicePage.item_invoice_id r <> new_id) ->
  InvoicePage.handleSubmit parseFloat page (Some user) faults new_id db
  = (InvoicePage.Failed,
     InvoicePage.mkDb
       (InvoicePage.invoices db
        ++ [InvoicePage.invoice_row parseFloat new_id user (InvoicePage.invoiceForm page)
              (Invoices.calculateTotals parseFloat (InvoicePage.items page)
                 (InvoicePage.totals_form (InvoicePage.invoiceForm page)))])
       (InvoicePage.invoice_items db))
  /\ items_of new_id (InvoicePage.invoice_items db) = [].
Proof.
  intros Hed Hc Hn Hw Hi Hfresh. split.
  - unfold InvoicePage.handleSubmit. rewrite Hed, Hw, Hi.
    apply String.eqb_neq in Hc, Hn. now rewrite Hc, Hn.
  - now apply items_of_absent.
Qed.

Lemma submit_create_partial_witness :
  InvoicePage.editingInvoice typed_page = None
  /\ InvoicePage.client_id (InvoicePage.invoiceForm typed_page) <> ""
  /\ InvoicePage.invoice_number (InvoicePage.invoiceForm typed_page) <> ""
  /\ fst (InvoicePage.handleSubmit JS.parseFloat typed_page (Some "user-1")
            (InvoicePage.mkFaults false false true) "inv-3" empty_db)
     = InvoicePage.Failed
  /\ List.length (InvoicePage.invoices
       (snd (InvoicePage.handleSubmit JS.parseFloat typed_page (Some "user-1")
               (InvoicePage.mkFaults false false true) "inv-3" empty_db))) = 1
  /\ items_of "inv-3" (InvoicePage.invoice_items empty_db) = [].
Proof.
  assert (Hc : InvoicePage.client_id (InvoicePage.invoiceForm typed_page) <> "")
    by (cbn; discriminate).
  assert (Hn : InvoicePage.invoice_number (InvoicePage.invoiceForm typed_page) <> "")
    by (cbn; discriminate).
  pose proof (submit_create_partial JS.parseFloat typed_page "user-1"
                (InvoicePage.mkFaults false false true) "inv-3" empty_db
                eq_refl Hc Hn eq_refl eq_refl (fun r (H : In r []) => match H with end))
    as [Hsub Hnone].
  split; [reflexivity|]. split; [exact Hc|]. split; [exact Hn|].
  rewrite Hsub. cbn [fst snd InvoicePage.invoices]. repeat split; exact Hnone.
Defined.

(** X12.  The dialog only ever creates invoices: from every state it can
    reach, saving leaves each stored invoice row and item row in place and at
    most adds rows at the end; the update branch is never taken. *)
Theorem submit_only_adds parseFloat page user faults new_id db :
  InvoicePage.reachable parseFloat page ->
  extends (InvoicePage.invoices db)
    (InvoicePage.invoices
       (snd (InvoicePage.handleSubmit parseFloat page user faults new_id db)))
  /\ extends (InvoicePage.invoice_items db)
       (InvoicePage.invoice_items
          (snd (InvoicePage.handleSubmit parseFloat page user faults new_id db))).
Proof.
  intros Hr. destruct (reachable_invariant _ _ Hr) as (_ & _ & _ & Hed).
  unfold InvoicePage.handleSubmit. rewrite Hed.
  destruct (_ || _); [split; exists []; cbn; now rewrite app_nil_r|].
  destruct user as [user|]; [|split; exists []; cbn; now rewrite app_nil_r].
  destruct (InvoicePage.invoice_write_fails faults);
    [split; exists []; cbn; now rewrite app_nil_r|].
  destruct (InvoicePage.items_insert_fails faults); cbn [snd InvoicePage.invoices
                                                           InvoicePage.invoice_items].
  - split; [eexists; reflexivity|exists []; now rewrite app_nil_r].
  - split; eexists; reflexivity.
Qed.

Lemma submit_only_adds_witness :
  InvoicePage.reachable JS.parseFloat typed_page
  /\ extends (InvoicePage.invoices one_invoice_db)
       (InvoicePage.invoices
          (snd (InvoicePage.handleSubmit JS.parseFloat typed_page (Some "user-1")
                  no_faults "inv-3" one_invoice_db)))
  /\ extends (InvoicePage.invoice_items one_invoice_db)
       (InvoicePage.invoice_items
          (snd (InvoicePage.handleSubmit JS.parseFloat typed_page (Some "user-1")
                  no_faults "inv-3" one_invoice_db))).
Proof.
  split; [exact typed_page_reachable|].
  exact (submit_only_adds JS.parseFloat typed_page (Some "user-1") no_faults "inv-3"
           one_invoice_db typed_page_reachable).
Defined.

(** X13.  The update branch, were an invoice under edit: a successful save
    keeps the number of invoice rows, writes the new fields under the edited
    key only, and leaves the item rows of all other invoices as they are; the
    edited invoice's item rows become the form's lines when the delete went
    through, and the old rows followed by the form's lines when the delete
    failed, since its error is not looked at. *)
Theorem submit_update_replaces parseFloat page user faults new_id db db' editing_id :
  InvoicePage.editingInvoice page = Some editing_id ->
  InvoicePage.handleSubmit parseFloat page user faults new_id db
  = (InvoicePage.Success, db') ->
  List.length (InvoicePage.invoices db') = List.length (InvoicePage.invoices db)
  /\ map InvoicePage.inv_id (InvoicePage.invoices db')
     = map InvoicePage.inv_id (InvoicePage.invoices db)
  /\ (forall row, In row (InvoicePage.invoices db) ->
                  InvoicePage.inv_id row <> editing_id ->
                  In row (InvoicePage.invoices db'))
  /\ items_of_others editing_id (InvoicePage.invoice_items db')
     = items_of_others editing_id (InvoicePage.invoice_items db)
  /\ items_of editing_id (InvoicePage.invoice_items db')
     = (if InvoicePage.items_delete_fails faults
        then items_of editing_id (InvoicePage.invoice_items db) else [])
       ++ map (InvoicePage.item_row editing_id) (InvoicePage.items page).
Proof.
  intros Hed. unfold InvoicePage.handleSubmit. rewrite Hed.
  destruct (_ || _); [discriminate|].
  destruct user as [user|]; [|discriminate].
  destruct (InvoicePage.invoice_write_fails faults); [discriminate|].
  destruct (InvoicePage.items_insert_fails faults); [discriminate|].
  intros [= <-]. cbn [InvoicePage.invoices InvoicePage.invoice_items].
  destruct (items_of_new editing_id (InvoicePage.items page)) as [Hn1 Hn2].
  destruct (items_of_kept editing_id (InvoicePage.invoice_items db)) as [Hk1 Hk2].
  split; [apply length_map|]. split; [|split; [|split]].
  - rewrite map_map. apply map_ext. intros row.
    now destruct (String.eqb (InvoicePage.inv_id row) editing_id).
  - intros row Hin Hne. apply in_map_iff. exists row. split; [|exact Hin].
    apply String.eqb_neq in Hne. now rewrite Hne.
  - unfold items_of_others in *. rewrite filter_app, Hn2, app_nil_r.
    destruct (InvoicePage.items_delete_fails faults); [reflexivity|exact Hk2].
  - unfold items_of, items_of_others in *. rewrite filter_app, Hn1.
    destruct (InvoicePage.items_delete_fails faults); [reflexivity|now rewrite Hk1].
Qed.

Lemma submit_update_replaces_witness :
  InvoicePage.editingInvoice editing_page = Some "inv-1"
  /\ items_of "inv-1"
       (InvoicePage.invoice_items
          (snd (InvoicePage.handleSubmit JS.parseFloat editing_page (Some "user-1")
                  (InvoicePage.mkFaults false true false) "inv-3" one_invoice_db)))
     = items_of "inv-1" (InvoicePage.invoice_items one_invoice_db)
       ++ map (InvoicePage.item_row "inv-1") (InvoicePage.items editing_page).
Proof.
  split; [reflexivity|].
  exact (proj2 (proj2 (proj2 (proj2
           (submit_update_replaces JS.parseFloat editing_page (Some "user-1")
              (InvoicePage.mkFaults false true false) "inv-3" one_invoice_db _ "inv-1"
              eq_refl eq_refl))))).
Defined.

(** ** Saving and editing a payment *)

Lemma or_null_or_empty s : s <> Some "" -> JS.or_null (ClientPage.or_empty s) = s.
Proof.
  destruct s as [s|]; cbn; [|reflexivity]. intros H. unfold JS.or_null.
  destruct (String.eqb_spec s ""); [subst; contradiction|reflexivity].
Qed.

Lemma or_null_some s : s <> "" -> JS.or_null s = Some s.
Proof.
  intros H. unfold JS.or_null. destruct (String.eqb_spec s ""); [contradiction|reflexivity].
Qed.

Lemma or_null_none s : JS.or_null s = None <-> s = "".
Proof.
  unfold JS.or_null. destruct (String.eqb_spec s ""); split; congruence.
Qed.

(** X14.  Saving a payment sends a request exactly when the amount text is
    not empty, the page has a client id, a user is signed in and no upload
    failed; it is an update of the payment under edit, else an insert for
    the client and user; the document linked is the uploaded one when a file
    was uploaded and the one selected in the form otherwise. *)
Theorem payment_sent_iff parseFloat today form id user editing file r :
  ClientDetail.handleAddPayment parseFloat today form id user editing file
  = ClientDetail.Sent r
  <-> ClientDetail.f_amount form <> ""
      /\ exists client u doc,
           id = Some client /\ user = Some u
           /\ (file = None /\ doc = ClientDetail.f_invoice_document_id form
               \/ file = Some (Some doc))
           /\ r = match editing with
                  | Some payment_id =>
                      ClientDetail.Update payment_id
                        (ClientDetail.payment_fields parseFloat today form doc)
                  | None =>
                      ClientDetail.Insert client u
                        (ClientDetail.payment_fields parseFloat today form doc)
                  end.
Proof.
  unfold ClientDetail.handleAddPayment. split.
  - destruct (JS.or_null (ClientDetail.f_amount form)) eqn:Ea; [|discriminate].
    assert (Hne : ClientDetail.f_amount form <> "")
      by (intros E; apply or_null_none in E; congruence).
    destruct id as [client|]; [|discriminate].
    destruct user as [u|]; [|discriminate].
    destruct file as [[doc|]|]; try discriminate; destruct editing;
      intros [= <-]; (split; [exact Hne|]);
      eexists _, _, _; repeat split; eauto.
  - intros (Hne & client & u & doc & -> & -> & Hfile & ->).
    rewrite (or_null_some _ Hne).
    destruct Hfile as [[-> ->] | ->]; now destruct editing.
Qed.

(** X15.  Opening a stored payment for edit and saving it unchanged sends an
    update of that payment with the same status, description, due date and
    document link; the amount goes through its text; the paid date is not
    kept: it is today's date for a paid payment, whatever day it was paid
    on, and null otherwise. *)
Theorem edit_then_save parseFloat toString today payment client user :
  toString (ClientDetail.amount (ClientDetail.row_fields payment)) <> "" ->
  ClientDetail.description (ClientDetail.row_fields payment) <> Some "" ->
  ClientDetail.due_date (ClientDetail.row_fields payment) <> Some "" ->
  ClientDetail.invoice_document_id (ClientDetail.row_fields payment) <> Some "" ->
  ClientDetail.handleAddPayment parseFloat today
    (ClientPage.paymentForm (ClientPage.handleEditPayment toString payment))
    (Some client) (Some user)
    (ClientPage.editingPayment (ClientPage.handleEditPayment toString payment))
    None
  = ClientDetail.Sent
      (ClientDetail.Update (ClientDetail.row_id payment)
         (ClientDetail.mkFields
            (parseFloat (toString (ClientDetail.amount (ClientDetail.row_fields payment))))
            (ClientDetail.status (ClientDetail.row_fields payment))
            (ClientDetail.description (ClientDetail.row_fields payment))
            (ClientDetail.due_date (ClientDetail.row_fields payment))
            (if String.eqb (ClientDetail.status (ClientDetail.row_fields payment)) "paid"
             then Some today else None)
            (ClientDetail.invoice_document_id (ClientDetail.row_fields payment)))).
Proof.
  intros Ha Hd Hdue Hdoc.
  unfold ClientPage.handleEditPayment, ClientDetail.handleAddPayment.
  cbn [ClientPage.paymentForm ClientPage.editingPayment ClientDetail.f_amount
       ClientDetail.f_invoice_document_id].
  rewrite (or_null_some _ Ha). unfold ClientDetail.payment_fields.
  cbn [ClientDetail.f_amount ClientDetail.f_status ClientDetail.f_description
       ClientDetail.f_due_date].
  now rewrite !or_null_or_empty by assumption.
Qed.

Lemma edit_then_save_witness :
  show_amount (ClientDetail.amount (ClientDetail.row_fields paid_row)) <> ""
  /\ ClientDetail.handleAddPayment JS.parseFloat (Date.mk 2024 4 2)
       (ClientPage.paymentForm (ClientPage.handleEditPayment show_amount paid_row))
       (Some "client-1") (Some "user-1")
       (ClientPage.editingPayment (ClientPage.handleEditPayment show_amount paid_row))
       None
     = ClientDetail.Sent (ClientDetail.Update "pay-1" (paid_fields (Date.mk 2024 4 2))).
Proof.
  assert (Ha : show_amount (ClientDetail.amount (ClientDetail.row_fields paid_row)) <> "")
    by (vm_compute; discriminate).
  split; [exact Ha|].
  rewrite (edit_then_save JS.parseFloat show_amount (Date.mk 2024 4 2) paid_row
             "client-1" "user-1" Ha); try (cbn; discriminate).
  vm_compute. reflexivity.
Defined.

Lemma dialog_step_invariant toString d e d' :
  (ClientPage.invoiceFile d <> None ->
   ClientDetail.f_invoice_document_id (ClientPage.paymentForm d) = "") ->
  ClientPage.step toString d e = Some d' ->
  ClientPage.invoiceFile d' <> None ->
  ClientDetail.f_invoice_document_id (ClientPage.paymentForm d') = "".
Proof.
  intros Hinv Hstep. destruct e; cbn [ClientPage.step] in Hstep;
    try (injection Hstep as <-; cbn; auto; fail).
  - destruct (ClientPage.invoiceFile d); [|discriminate].
    injection Hstep as <-. cbn. congruence.
  - destruct (ClientPage.invoiceFile d) eqn:E; [discriminate|].
    injection Hstep as <-. cbn. rewrite E. congruence.
  - destruct (JS.or_null _); [|discriminate].
    destruct (ClientPage.invoiceFile d); [discriminate|].
    injection Hstep as <-. reflexivity.
  - injection Hstep as <-. destruct open; cbn; auto.
  - injection Hstep as <-. cbn. congruence.
Qed.

Lemma dialog_reachable_invariant toString d :
  ClientPage.reachable toString d ->
  ClientPage.invoiceFile d <> None ->
  ClientDetail.f_invoice_document_id (ClientPage.paymentForm d) = "".
Proof.
  induction 1 as [|d e d' _ IH Hstep]; [reflexivity|].
  exact (dialog_step_invariant _ _ _ _ IH Hstep).
Qed.

Lemma run_dialog_reachable toString events : forall d d',
  ClientPage.reachable toString d ->
  run_dialog toString d events = Some d' ->
  ClientPage.reachable toString d'.
Proof.
  induction events as [|e events IH]; intros d d' Hr Hrun; cbn in Hrun.
  - now injection Hrun as <-.
  - destruct (ClientPage.step toString d e) as [d1|] eqn:E; [|discriminate].
    apply (IH d1); [|exact Hrun]. eapply ClientPage.reach_step; eauto.
Qed.

Lemma file_chosen_reachable : ClientPage.reachable show_amount file_chosen.
Proof.
  apply (run_dialog_reachable show_amount select_then_choose ClientPage.initial).
  - constructor.
  - reflexivity.
Defined.

(** X16.  In every state the payment dialog can reach, a chosen file and a
    selected document never go together: while a file is chosen the form's
    document selection is empty, so an upload never displaces a selection at
    saving. *)
Theorem file_excludes_selection toString d :
  ClientPage.reachable toString d ->
  ClientPage.invoiceFile d <> None ->
  ClientDetail.f_invoice_document_id (ClientPage.paymentForm d) = "".
Proof. apply dialog_reachable_invariant. Qed.

Lemma file_excludes_selection_witness :
  ClientPage.reachable show_amount file_chosen
  /\ ClientPage.invoiceFile file_chosen <> None
  /\ ClientDetail.f_invoice_document_id (ClientPage.paymentForm file_chosen) = "".
Proof.
  assert (H : ClientPage.invoiceFile file_chosen <> None) by (cbn; discriminate).
  split; [exact file_chosen_reachable|]. split; [exact H|].
  exact (file_excludes_selection show_amount file_chosen file_chosen_reachable H).
Defined.

(** ** The preview URL *)



(** ** Saving and editing an expense *)

(** X18.  Saving an expense sends a request exactly when neither the amount
    text nor the date is empty, a user is signed in and no upload failed; it
    is an update of the expense under edit, else an insert for the user; the
    date is written as typed and the uploaded document, if any, is the one
    linked. *)
Theorem expense_sent_iff parseFloat form user editing file r :
  ExpensePage.handleSubmit parseFloat form user editing file = ExpensePage.Sent r
  <-> ExpensePage.f_amount form <> "" /\ ExpensePage.f_date form <> ""
      /\ exists u doc,
           user = Some u
           /\ (file = None /\ doc = ExpensePage.f_invoice_document_id form
               \/ file = Some (Some doc))
           /\ r = match editing with
                  | Some expense_id =>
                      ExpensePage.Update expense_id
                        (ExpensePage.expense_fields parseFloat form doc)
                  | None =>
                      ExpensePage.Insert u (ExpensePage.expense_fields parseFloat form doc)
                  end.
Proof.
  unfold ExpensePage.handleSubmit. split.
  - destruct (JS.or_null (ExpensePage.f_amount form)) eqn:Ea; [|discriminate].
    destruct (JS.or_null (ExpensePage.f_date form)) eqn:Ed; [|discriminate].
    assert (Hna : ExpensePage.f_amount form <> "")
      by (intros E; apply or_null_none in E; congruence).
    assert (Hnd : ExpensePage.f_date form <> "")
      by (intros E; apply or_null_none in E; congruence).
    destruct user as [u|]; [|discriminate].
    destruct file as [[doc|]|]; try discriminate; destruct editing;
      intros [= <-]; (split; [exact Hna|]); (split; [exact Hnd|]);
      eexists _, _; repeat split; eauto.
  - intros (Hna & Hnd & u & doc & -> & Hfile & ->).
    rewrite (or_null_some _ Hna), (or_null_some _ Hnd).
    destruct Hfile as [[-> ->] | ->]; now destruct editing.
Qed.

(** X19.  Opening a stored expense for edit and saving it unchanged sends an
    update of that expense with the same description, date, category and
    document link; only the amount goes through its text. *)
Theorem expense_edit_then_save parseFloat toString expense user :
  toString (ExpensePage.amount (ExpensePage.row_fields expense)) <> "" ->
  ExpensePage.date (ExpensePage.row_fields expense) <> "" ->
  ExpensePage.description (ExpensePage.row_fields expense) <> Some "" ->
  ExpensePage.category (ExpensePage.row_fields expense) <> Some "" ->
  ExpensePage.invoice_document_id (ExpensePage.row_fields expense) <> Some "" ->
  ExpensePage.handleSubmit parseFloat
    (fst (ExpensePage.handleEdit toString expense)) (Some user)
    (snd (ExpensePage.handleEdit toString expense)) None
  = ExpensePage.Sent
      (ExpensePage.Update (ExpensePage.row_id expense)
         (ExpensePage.mkFields
            (parseFloat (toString (ExpensePage.amount (ExpensePage.row_fields expense))))
            (ExpensePage.description (ExpensePage.row_fields expense))
            (ExpensePage.date (ExpensePage.row_fields expense))
            (ExpensePage.category (ExpensePage.row_fields expense))
            (ExpensePage.invoice_document_id (ExpensePage.row_fields expense)))).
Proof.
  intros Ha Hdate Hd Hc Hdoc.
  unfold ExpensePage.handleEdit, ExpensePage.handleSubmit.
  cbn [fst snd ExpensePage.f_amount ExpensePage.f_date
       ExpensePage.f_invoice_document_id].
  rewrite (or_null_some _ Ha), (or_null_some _ Hdate).
  unfold ExpensePage.expense_fields.
  cbn [ExpensePage.f_amount ExpensePage.f_date ExpensePage.f_description
       ExpensePage.f_category].
  now rewrite !or_null_or_empty by assumption.
Qed.

Lemma expense_edit_then_save_witness :
  show_amount (ExpensePage.amount (ExpensePage.row_fields travel_expense)) <> ""
  /\ ExpensePage.handleSubmit JS.parseFloat
       (fst (ExpensePage.handleEdit show_amount travel_expense)) (Some "user-1")
       (snd (ExpensePage.handleEdit show_amount travel_expense)) None
     = ExpensePage.Sent
         (ExpensePage.Update "exp-1" (ExpensePage.row_fields travel_expense)).
Proof.
  assert (Ha : show_amount (ExpensePage.amount (ExpensePage.row_fields travel_expense))
               <> "") by (vm_compute; discriminate).
  split; [exact Ha|].
  rewrite (expense_edit_then_save JS.parseFloat show_amount travel_expense "user-1" Ha);
    try (cbn; discriminate).
  vm_compute. reflexivity.
Defined.

(** ** The monthly figure of the expenses page *)

(** X24.  At UTC and east of Greenwich, with months numbered from 1, the
    monthly figure is the left-to-right sum of the amounts of exactly the
    expenses dated in the current month of the current year. *)
Theorem monthly_expenses_east clock expenses :
  (0 <= Expenses.utc_offset clock)%Z ->
  1 <= Date.month (Expenses.now clock) ->
  Forall (fun e => 1 <= Date.month (Expenses.date e)) expenses ->
  Expenses.monthlyExpenses clock expenses
  = JS.sum (map Expenses.amount (filter (in_current_month clock) expenses)).
Proof. apply monthlyExpenses_east. Qed.

Lemma monthly_expenses_east_witness :
  (0 <= Expenses.utc_offset clock_east)%Z
  /\ Expenses.monthlyExpenses clock_east march_expenses
     = JS.sum (map Expenses.amount (filter (in_current_month clock_east) march_expenses)).
Proof.
  assert (H0 : (0 <= Expenses.utc_offset clock_east)%Z) by (cbn; lia).
  split; [exact H0|].
  apply (monthly_expenses_east clock_east march_expenses H0).
  - cbn. lia.
  - unfold march_expenses. repeat (apply Forall_cons; [cbn; lia|]). apply Forall_nil.
Defined.

(** X20.  West of Greenwich the monthly figure is off by a day at the month's
    edge: an expense dated on the first day of the current month is left out
    (taking it away does not change the figure), and an expense dated on the
    first day of the next month, which after December is 1 January of the
    next year, is added to it. *)
Theorem monthlyExpenses_west clock e :
  (Expenses.utc_offset clock < 0)%Z ->
  Date.day (Expenses.date e) = 1 ->
  1 <= Date.month (Expenses.now clock) ->
  ((Date.year (Expenses.date e), Date.month (Expenses.date e))
   = (Date.year (Expenses.now clock), Date.month (Expenses.now clock)) ->
   forall before after,
     Expenses.monthlyExpenses clock (before ++ e :: after)
     = Expenses.monthlyExpenses clock (before ++ after))
  /\ ((Date.year (Expenses.date e), Date.month (Expenses.date e))
      = next_month (Expenses.now clock) ->
      forall before,
        Expenses.monthlyExpenses clock (before ++ [e])
        = (Expenses.monthlyExpenses clock before + Expenses.amount e)%float).
Proof.
  intros Hoff Hday Hnow.
  apply Z.ltb_lt in Hoff. apply Nat.eqb_eq in Hday.
  unfold Expenses.monthlyExpenses. split.
  - intros [= Hyear Hm] before after. rewrite !filter_app. cbn [filter].
    unfold Expenses.getFullYear_getMonth at 2. rewrite Hoff, Hday. cbn [andb].
    destruct (Nat.eqb_spec (Date.month (Expenses.date e)) 1) as [E1|E1].
    + destruct (Nat.eqb_spec 11 (Date.month (Expenses.now clock) - 1)); [lia|].
      reflexivity.
    + destruct (Nat.eqb_spec (Date.month (Expenses.date e) - 2)
                             (Date.month (Expenses.now clock) - 1)); [lia|].
      reflexivity.
  - unfold next_month. intros Hnext before. rewrite filter_app. cbn [filter].
    unfold Expenses.getFullYear_getMonth at 2. rewrite Hoff, Hday. cbn [andb].
    destruct (Nat.eqb_spec (Date.month (Expenses.now clock)) 12) as [E12|E12];
      injection Hnext as Hyear Hm.
    + rewrite Hm, Hyear, E12. cbn [Nat.eqb Nat.sub].
      replace (Date.year (Expenses.now clock) + 1 - 1)
        with (Date.year (Expenses.now clock)) by lia.
      rewrite Nat.eqb_refl. cbn [andb]. now rewrite fold_left_app.
    + destruct (Nat.eqb_spec (Date.month (Expenses.date e)) 1) as [E1|E1]; [lia|].
      destruct (Nat.eqb_spec (Date.month (Expenses.date e) - 2)
                             (Date.month (Expenses.now clock) - 1)); [|lia].
      rewrite Hyear, Nat.eqb_refl. cbn [andb].
      now rewrite fold_left_app.
Qed.

Lemma monthlyExpenses_west_witness :
  (Expenses.utc_offset clock_west < 0)%Z
  /\ (Expenses.utc_offset clock_west_december < 0)%Z
  /\ Expenses.monthlyExpenses clock_west
       ([] ++ Expenses.mkExpense 40 (Date.mk 2024 3 1)
           :: [Expenses.mkExpense 2.5 (Date.mk 2024 3 20)])
     = Expenses.monthlyExpenses clock_west
         ([] ++ [Expenses.mkExpense 2.5 (Date.mk 2024 3 20)])
  /\ Expenses.monthlyExpenses clock_west
       ([Expenses.mkExpense 2.5 (Date.mk 2024 3 20)]
        ++ [Expenses.mkExpense 7 (Date.mk 2024 4 1)])
     = (Expenses.monthlyExpenses clock_west [Expenses.mkExpense 2.5 (Date.mk 2024 3 20)]
        + 7)%float
  /\ Expenses.monthlyExpenses clock_west_december
       ([Expenses.mkExpense 5 (Date.mk 2024 12 20)]
        ++ [Expenses.mkExpense 9 (Date.mk 2025 1 1)])
     = (Expenses.monthlyExpenses clock_west_december
          [Expenses.mkExpense 5 (Date.mk 2024 12 20)]
        + 9)%float.
Proof.
  assert (H0 : (Expenses.utc_offset clock_west < 0)%Z) by (cbn; lia).
  assert (H1 : (Expenses.utc_offset clock_west_december < 0)%Z) by (cbn; lia).
  split; [exact H0|]. split; [exact H1|]. split; [|split].
  - apply (proj1 (monthlyExpenses_west clock_west (Expenses.mkExpense 40 (Date.mk 2024 3 1))
                    H0 eq_refl ltac:(cbn; lia))).
    reflexivity.
  - apply (proj2 (monthlyExpenses_west clock_west (Expenses.mkExpense 7 (Date.mk 2024 4 1))
                    H0 eq_refl ltac:(cbn; lia))).
    reflexivity.
  - apply (proj2 (monthlyExpenses_west clock_west_december
                    (Expenses.mkExpense 9 (Date.mk 2025 1 1))
                    H1 eq_refl ltac:(cbn; lia))).
    reflexivity.
Defined.

(** ** A tax rate that does not read as a number *)

Lemma mul_nan x : (x * nan)%float = nan.
Proof.
  apply FloatAxioms.Prim2SF_inj. rewrite FloatAxioms.mul_spec.
  change (FloatOps.Prim2SF nan) with SpecFloat.S754_nan.
  unfold FloatAxioms.SF64mul. destruct (FloatOps.Prim2SF x); reflexivity.
Qed.

Lemma add_nan x : (x + nan)%float = nan.
Proof.
  apply FloatAxioms.Prim2SF_inj. rewrite FloatAxioms.add_spec.
  change (FloatOps.Prim2SF nan) with SpecFloat.S754_nan.
  unfold FloatAxioms.SF64add. destruct (FloatOps.Prim2SF x); reflexivity.
Qed.

(** X21.  When the tax-rate text reads as NaN (an emptied field does), the
    tax amount and the total are NaN whatever the lines are, while the
    subtotal is still the sum of the line amounts. *)
Theorem nan_tax_rate parseFloat items form :
  parseFloat (Invoices.tax_rate form) = nan ->
  Invoices.taxAmount (Invoices.calculateTotals parseFloat items form) = nan
  /\ Invoices.total (Invoices.calculateTotals parseFloat items form) = nan
  /\ Invoices.subtotal (Invoices.calculateTotals parseFloat items form)
     = JS.sum (map Invoices.amount items).
Proof.
  intros H. unfold Invoices.calculateTotals.
  cbn [Invoices.taxAmount Invoices.total Invoices.subtotal]. rewrite H.
  change (nan / 100)%float with nan. rewrite mul_nan, add_nan.
  repeat split. apply fold_left_add_map.
Qed.

Lemma nan_tax_rate_witness :
  JS.parseFloat (Invoices.tax_rate (Invoices.mkForm "INV-7" "")) = nan
  /\ Invoices.total
       (Invoices.calculateTotals JS.parseFloat two_lines (Invoices.mkForm "INV-7" ""))
     = nan.
Proof.
  assert (H : JS.parseFloat (Invoices.tax_rate (Invoices.mkForm "INV-7" "")) = nan)
    by (vm_compute; reflexivity).
  split; [exact H|].
  exact (proj1 (proj2 (nan_tax_rate JS.parseFloat two_lines (Invoices.mkForm "INV-7" "") H))).
Defined.

(** ** A change of one line leaves the others alone *)

(** X22.  For the index of a rendered row, that is an index within the
    list, a change of that line gives a list with the same number of lines
    in which every other line is as it was, and a change of the description
    keeps the line's quantity, unit price and amount. *)
Theorem handleItemChange_frame items index change :
  index < List.length items ->
  exists items',
    Invoices.handleItemChange items index change = Some items'
    /\ List.length items' = List.length items
    /\ (forall j, j <> index -> nth_error items' j = nth_error items j)
    /\ (forall text item item',
          change = Invoices.Description text ->
          nth_error items index = Some item ->
          nth_error items' index = Some item' ->
          Invoices.quantity item' = Invoices.quantity item
          /\ Invoices.unit_price item' = Invoices.unit_price item
          /\ Invoices.amount item' = Invoices.amount item).
Proof.
  revert index. induction items as [|x items IH]; intros index Hlt;
    cbn [List.length] in Hlt; [lia|].
  destruct index as [|index]; cbn [Invoices.handleItemChange].
  - eexists. split; [reflexivity|]. split; [reflexivity|]. split.
    + intros [|j] Hj; [congruence|reflexivity].
    + intros text item item' -> [= <-] [= <-]. cbn. auto.
  - destruct (IH index ltac:(lia)) as (rest' & -> & Hl & Hj & Hd).
    eexists. split; [reflexivity|]. cbn [List.length].
    split; [now rewrite Hl|]. split.
    + intros [|j] Hne; [reflexivity|]. cbn [nth_error]. apply Hj. lia.
    + intros text item item' Hc Hi Hi'. cbn [nth_error] in Hi, Hi'. eauto.
Qed.

Lemma handleItemChange_frame_witness :
  1 < List.length two_lines
  /\ exists items',
       Invoices.handleItemChange two_lines 1 (Invoices.Description "Hosting")
       = Some items'
       /\ List.length items' = List.length two_lines
       /\ (forall j, j <> 1 -> nth_error items' j = nth_error two_lines j)
       /\ (forall text item item',
             Invoices.Description "Hosting" = Invoices.Description text ->
             nth_error two_lines 1 = Some item ->
             nth_error items' 1 = Some item' ->
             Invoices.quantity item' = Invoices.quantity item
             /\ Invoices.unit_price item' = Invoices.unit_price item
             /\ Invoices.amount item' = Invoices.amount item).
Proof.
  assert (H : 1 < List.length two_lines) by (cbn; lia).
  split; [exact H|].
  exact (handleItemChange_frame two_lines 1 (Invoices.Description "Hosting") H).
Defined.

(** ** The subtotal shown in the dialog *)

Lemma consistent_amounts items :
  Forall line_consistent items ->
  map Invoices.amount items
  = map (fun item => (Invoices.quantity item * Invoices.unit_price item)%float) items.
Proof.
  induction 1 as [|x items Hx _ IH]; [reflexivity|].
  cbn [map]. now rewrite Hx, IH.
Qed.

(** X23.  In every state the invoice dialog can reach, the subtotal it shows
    and saves is the left-to-right sum of quantity times unit price over the
    lines as they stand, and the total is that subtotal plus the tax
    amount. *)
Theorem subtotal_of_lines parseFloat page :
  InvoicePage.reachable parseFloat page ->
  Invoices.subtotal
    (Invoices.calculateTotals parseFloat (InvoicePage.items page)
       (InvoicePage.totals_form (InvoicePage.invoiceForm page)))
  = JS.sum (map (fun item => (Invoices.quantity item * Invoices.unit_price item)%float)
              (InvoicePage.items page))
  /\ Invoices.total
       (Invoices.calculateTotals parseFloat (InvoicePage.items page)
          (InvoicePage.totals_form (InvoicePage.invoiceForm page)))
     = (JS.sum (map (fun item => (Invoices.quantity item * Invoices.unit_price item)%float)
                  (InvoicePage.items page))
        + Invoices.taxAmount
            (Invoices.calculateTotals parseFloat (InvoicePage.items page)
               (InvoicePage.totals_form (InvoicePage.invoiceForm page))))%float.
Proof.
  intros Hr. destruct (reachable_invariant _ _ Hr) as (_ & Hc & _ & _).
  unfold Invoices.calculateTotals.
  cbn [Invoices.subtotal Invoices.total Invoices.taxAmount].
  rewrite fold_left_add_map, (consistent_amounts _ Hc). split; reflexivity.
Qed.

Lemma subtotal_of_lines_witness :
  InvoicePage.reachable JS.parseFloat typed_page
  /\ Invoices.subtotal
       (Invoices.calculateTotals JS.parseFloat (InvoicePage.items typed_page)
          (InvoicePage.totals_form (InvoicePage.invoiceForm typed_page)))
     = JS.sum (map (fun item => (Invoices.quantity item * Invoices.unit_price item)%float)
                 (InvoicePage.items typed_page)).
Proof.
  split; [exact typed_page_reachable|].
  exact (proj1 (subtotal_of_lines JS.parseFloat typed_page typed_page_reachable)).
Defined.
